(** * Onion-routing classroom simulator: coordinator and relay agent

    A shallow embedding of [relay_agent_py.py] (the per-role relay agent and
    its visibility rules) and of [coordinator_py.py] (circuit orchestration,
    event fan-out, endpoint registry, timing samples and the scheduler),
    followed by the properties established about them.

    Python dictionaries are finite maps from strings to Python values, the
    observer set is a finite set of connections, exceptions are an explicit
    result type, and the module-level globals of the coordinator are the
    fields of one state record threaded through every coroutine. Each
    coroutine is run to completion between two scheduling points of the event
    loop; what the outside world does at an [await] (a random draw, a clock
    reading, a peer answering, failing or staying silent) is read from an
    explicit environment record. The event fan-out is given twice: as
    [broadcast_to_browsers], with no other coroutine running during its sends,
    which is how the circuits use it, and as [broadcast_to_browsers_live],
    where the connection handlers may add to and discard from the observer
    set while a send is awaited. *)

From Stdlib Require Import ZArith PrimFloat Ascii String.
From stdpp Require Import gmap strings list fin_maps pretty.

#[local] Set Warnings "-register-all,-clear-no-such-hyp".
#[local] Open Scope Z_scope.

(** ** Python values, exceptions and the few built-ins the programs use *)

Module Py.

Inductive value :=
  | VNone
  | VBool (b : bool)
  | VInt (n : Z)
  | VFloat (f : float)
  | VStr (s : string)
  | VList (l : list value)
  | VDict (d : gmap string value).

Inductive exn :=
  | KeyError (key : string)
  | TypeError
  | AttributeError
  | JSONDecodeError
  | ConnectionClosed
  | RuntimeError.

Inductive result (A : Type) :=
  | Ok (a : A)
  | Raise (e : exn).
Arguments Ok {A} a.
Arguments Raise {A} e.

Definition bindR {A B} (r : result A) (k : A → result B) : result B :=
  match r with
  | Ok a => k a
  | Raise e => Raise e
  end.

Notation "'try!' x ':=' r 'in' k" := (bindR r (fun x => k))
  (at level 10, x name, r at level 100, k at level 200).

(** [bool(v)]: the truth value of an object. *)
Definition truthy (v : value) : bool :=
  match v with
  | VNone => false
  | VBool b => b
  | VInt n => negb (n =? 0)
  | VFloat f => negb (PrimFloat.eqb f 0%float)
  | VStr s => negb (String.eqb s "")
  | VList l => match l with [] => false | _ => true end
  | VDict d => match map_to_list d with [] => false | _ => true end
  end.

(** [a or b] *)
Definition py_or (a b : value) : value := if truthy a then a else b.

(** [d[k]] *)
Definition subscript {V} (d : gmap string V) (k : string) : result V :=
  match d !! k with
  | Some v => Ok v
  | None => Raise (KeyError k)
  end.

(** [d.get(k, dflt)] *)
Definition get {V} (d : gmap string V) (k : string) (dflt : V) : V :=
  default dflt (d !! k).

(** [x - 1] for an object [x]: integers (and booleans, which are integers),
    floats; anything else has no [__sub__] with an [int]. *)
Definition sub1 (x : value) : result value :=
  match x with
  | VInt n => Ok (VInt (n - 1))
  | VBool b => Ok (VInt ((if b then 1 else 0) - 1))
  | VFloat f => Ok (VFloat (PrimFloat.sub f 1%float))
  | _ => Raise TypeError
  end.

(** [x == s] for a string literal [s]. *)
Definition eq_str (x : value) (s : string) : bool :=
  match x with
  | VStr t => String.eqb t s
  | _ => false
  end.

(** [str(n)] for an integer. *)
Definition str_int (n : Z) : string := pretty n.

Fixpoint zeros (n : nat) : string :=
  match n with
  | O => ""
  | S n' => String "0"%char (zeros n')
  end.

(** [s.zfill(width)]: left padding with zeros, after a leading sign. *)
Definition zfill (width : nat) (s : string) : string :=
  let pad := zeros (width - String.length s)%nat in
  match s with
  | String c r =>
      if (Ascii.eqb c "+"%char || Ascii.eqb c "-"%char)%bool
      then String c (pad +:+ r)
      else pad +:+ s
  | EmptyString => pad
  end.

(** [l[-n:]] *)
Definition last_n {A} (n : nat) (l : list A) : list A :=
  drop (length l - n)%nat l.

(** A dictionary display [{k1: v1, ..., kn: vn}]: later keys overwrite. *)
Definition dict (kvs : list (string * value)) : gmap string value :=
  foldl (fun d kv => <[kv.1 := kv.2]> d) ∅ kvs.

(** [{**base, k1: v1, ...}] *)
Definition dict_update (base : gmap string value) (kvs : list (string * value))
  : gmap string value :=
  foldl (fun d kv => <[kv.1 := kv.2]> d) base kvs.

End Py.
Import Py.

(** ** relay_agent_py.py *)

Module Relay.

Record visibility := {
  sees_src : bool;
  sees_dst : bool;
  sees_prev : bool;
  sees_next : bool
}.

Definition ROLE_VISIBILITY : gmap string visibility :=
  <["exit" := {| sees_src := false; sees_dst := true; sees_prev := true; sees_next := false |}]>
  (<["middle" := {| sees_src := false; sees_dst := false; sees_prev := true; sees_next := true |}]>
  (<["guard" := {| sees_src := true; sees_dst := false; sees_prev := false; sees_next := true |}]> ∅)).

Definition NEXT_HOP : gmap string string :=
  <["exit" := "destination"]> (<["middle" := "exit"]> (<["guard" := "middle"]> ∅)).

Definition ROLE_IPS : gmap string string :=
  <["exit" := "10.0.3.2"]> (<["middle" := "10.0.2.2"]> (<["guard" := "10.0.1.2"]> ∅)).

Record RelayAgent := {
  role : string;
  coordinator : string;
  my_ip : string;
  vis : visibility;
  packet_count : Z
}.

(** [RelayAgent.__init__] *)
Definition init (role coordinator my_ip : string) : result RelayAgent :=
  try! v := subscript ROLE_VISIBILITY role in
  Ok {| role := role; coordinator := "ws://" +:+ coordinator; my_ip := my_ip;
        vis := v; packet_count := 0 |}.

(** [RelayAgent.build_log_entry]; [now] is what [time.strftime("%H:%M:%S")]
    returns at the call. The conditional expressions evaluate only the branch
    taken, and the entries of the display are evaluated top to bottom. *)
Definition build_log_entry (self : RelayAgent) (pkt : gmap string value)
    (now : string) : result (gmap string value) :=
  let v := vis self in
  try! from_ip :=
    (if sees_src v then subscript pkt "src"
     else Ok (if sees_prev v then get pkt "prev_hop" (VStr "???") else VStr "???")) in
  try! to_ip :=
    (if sees_dst v then subscript pkt "dst"
     else if sees_next v
          then (try! n := subscript NEXT_HOP (role self) in Ok (VStr n))
          else Ok (VStr "???")) in
  try! layers := sub1 (get pkt "layers" (VInt 3)) in
  Ok (dict [("relay", VStr (role self));
            ("relay_ip", VStr (my_ip self));
            ("circuit_id", get pkt "circuit_id" VNone);
            ("ts", VStr now);
            ("from_ip", from_ip);
            ("to_ip", to_ip);
            ("from_known", VBool (sees_src v || sees_prev v));
            ("to_known", VBool (sees_dst v || sees_next v));
            ("layers_remaining", layers);
            ("packet_size_bytes", get pkt "size" (VInt 512))]).

(** One turn of the receive loop of [RelayAgent.run] on a decoded message:
    the agent after the turn and the message it sends back, if any. *)
Definition on_message (self : RelayAgent) (msg : value) (now : string)
  : result (RelayAgent * option value) :=
  match msg with
  | VDict m =>
      let ty := get m "type" VNone in
      if eq_str ty "packet" then
        let self' := {| role := role self; coordinator := coordinator self;
                        my_ip := my_ip self; vis := vis self;
                        packet_count := packet_count self + 1 |} in
        try! data := subscript m "data" in
        match data with
        | VDict pkt =>
            try! log := build_log_entry self' pkt now in
            Ok (self', Some (VDict (dict [("type", VStr "log"); ("data", VDict log)])))
        | _ => Raise AttributeError
        end
      else if eq_str ty "ping" then
        Ok (self, Some (VDict (dict [("type", VStr "pong"); ("role", VStr (role self))])))
      else Ok (self, None)
  | _ => Raise AttributeError
  end.

End Relay.

(** ** coordinator_py.py *)

Module Coordinator.

(** A websocket connection object; two handles are equal when they are the
    same connection. *)
Definition conn := positive.

(** Coroutines handed to [asyncio.create_task]. *)
Inductive task :=
  | TaskCircuit (src_ip dst_ip : value)
  | TaskCorrelation (api_key : string).

(** The module-level state ([agents], [browsers], [circuit_counter],
    [timing_log]) and, below it, what the run has done to the outside world:
    the messages passed to [broadcast_to_browsers] in call order, the
    messages successfully sent on each connection, and the tasks created. *)
Record coord := {
  agents : gmap string conn;
  browsers : gset conn;
  circuit_counter : Z;
  timing_log : gmap string (list value);
  emitted : list value;
  delivered : list (conn * value);
  spawned : list task
}.

Definition initial : coord :=
  {| agents := ∅; browsers := ∅; circuit_counter := 0;
     timing_log := <["exit" := []]> (<["guard" := []]> ∅);
     emitted := []; delivered := []; spawned := [] |}.

Definition set_agents (f : gmap string conn → gmap string conn) (st : coord) : coord :=
  {| agents := f (agents st); browsers := browsers st;
     circuit_counter := circuit_counter st; timing_log := timing_log st;
     emitted := emitted st; delivered := delivered st; spawned := spawned st |}.

Definition set_browsers (f : gset conn → gset conn) (st : coord) : coord :=
  {| agents := agents st; browsers := f (browsers st);
     circuit_counter := circuit_counter st; timing_log := timing_log st;
     emitted := emitted st; delivered := delivered st; spawned := spawned st |}.

Definition set_circuit_counter (n : Z) (st : coord) : coord :=
  {| agents := agents st; browsers := browsers st;
     circuit_counter := n; timing_log := timing_log st;
     emitted := emitted st; delivered := delivered st; spawned := spawned st |}.

Definition set_timing_log (t : gmap string (list value)) (st : coord) : coord :=
  {| agents := agents st; browsers := browsers st;
     circuit_counter := circuit_counter st; timing_log := t;
     emitted := emitted st; delivered := delivered st; spawned := spawned st |}.

Definition add_emitted (msg : value) (st : coord) : coord :=
  {| agents := agents st; browsers := browsers st;
     circuit_counter := circuit_counter st; timing_log := timing_log st;
     emitted := emitted st ++ [msg]; delivered := delivered st; spawned := spawned st |}.

Definition add_delivered (out : list (conn * value)) (st : coord) : coord :=
  {| agents := agents st; browsers := browsers st;
     circuit_counter := circuit_counter st; timing_log := timing_log st;
     emitted := emitted st; delivered := delivered st ++ out; spawned := spawned st |}.

Definition add_spawned (t : task) (st : coord) : coord :=
  {| agents := agents st; browsers := browsers st;
     circuit_counter := circuit_counter st; timing_log := timing_log st;
     emitted := emitted st; delivered := delivered st; spawned := spawned st ++ [t] |}.

(** Coroutines: state passing with exceptions. The state reached when an
    exception is raised is kept, as the globals are. *)
Definition M (A : Type) : Type := coord → coord * result A.

Definition ret {A} (a : A) : M A := fun st => (st, Ok a).
Definition raise {A} (e : exn) : M A := fun st => (st, Raise e).
Definition lift {A} (r : result A) : M A := fun st => (st, r).
Definition bind {A B} (m : M A) (k : A → M B) : M B :=
  fun st =>
    match m st with
    | (st', Ok a) => k a st'
    | (st', Raise e) => (st', Raise e)
    end.
Definition read {A} (f : coord → A) : M A := fun st => (st, Ok (f st)).
Definition modify (f : coord → coord) : M unit := fun st => (f st, Ok tt).

Notation "'do!' x ':=' m 'in' k" := (bind m (fun x => k))
  (at level 10, x name, m at level 100, k at level 200).
Notation "m ';;;' k" := (bind m (fun _ => k))
  (at level 100, k at level 200, right associativity).

(** Where in a coroutine the outside world is consulted. *)
Inductive site :=
  | AtStart
  | AtHop (role : string)
  | AtDone
  | AtRegister
  | AtAnalysis.

(** What [await asyncio.wait_for(ws.recv(), timeout=3.0)] followed by
    [json.loads] comes to: no message in time, [recv] itself raising, a
    message that is not JSON, or a decoded message. *)
Inductive reply :=
  | Timeout
  | RecvFailed
  | NotJSON (raw : string)
  | Parsed (msg : value).

(** The outside world during one coroutine. *)
Record env := {
  randint_src : Z * Z;
  randint_dst : Z * Z;
  randint_size : Z;
  time_time : site → float;
  strftime : string → string;
  agent_send_ok : string → bool;
  agent_recv : string → reply;
  browser_send_ok : site → conn → bool
}.

Definition rand_ip (prefix : string) (ab : Z * Z) : string :=
  prefix +:+ "." +:+ str_int ab.1 +:+ "." +:+ str_int ab.2.

Definition new_circuit_id : M string :=
  fun st =>
    let n := circuit_counter st + 1 in
    (set_circuit_counter n st, Ok ("C" +:+ zfill 3 (str_int n))).

(** The loop of [broadcast_to_browsers] over the members of the set:
    [send_ok ws] tells whether [ws.send] returns or raises. *)
Fixpoint broadcast_loop (send_ok : conn → bool) (msg : value) (wss : list conn)
    (dead : gset conn) (out : list (conn * value)) : gset conn * list (conn * value) :=
  match wss with
  | [] => (dead, out)
  | ws :: rest =>
      if send_ok ws
      then broadcast_loop send_ok msg rest dead (out ++ [(ws, msg)])
      else broadcast_loop send_ok msg rest ({[ws]} ∪ dead) out
  end.

(** [broadcast_to_browsers] when nothing else touches [browsers] between its
    first and its last send. *)
Definition broadcast_to_browsers (send_ok : conn → bool) (msg : value) : M unit :=
  fun st =>
    let '(dead, out) := broadcast_loop send_ok msg (elements (browsers st)) ∅ [] in
    (set_browsers (fun b => b ∖ dead) (add_delivered out (add_emitted msg st)), Ok tt).

(** [synthesize_log]; [now] is [time.strftime("%H:%M:%S")]. The display of
    the three tuples is evaluated in full before it is indexed by [role]. *)
Definition synthesize_log (role : string) (pkt : gmap string value) (now : string)
  : result (gmap string value) :=
  try! src := subscript pkt "src" in
  try! dst := subscript pkt "dst" in
  let table : gmap string (value * value * bool * bool) :=
    <["exit" := (VStr "middle-relay", dst, true, true)]>
    (<["middle" := (VStr "guard-node", VStr "exit-node", true, true)]>
    (<["guard" := (src, VStr "middle-relay", true, true)]> ∅)) in
  try! vis := subscript table role in
  try! cid := subscript pkt "circuit_id" in
  try! layers := subscript pkt "layers" in
  try! remaining := sub1 layers in
  Ok (dict [("relay", VStr role);
            ("circuit_id", cid);
            ("ts", VStr now);
            ("from_ip", vis.1.1.1);
            ("to_ip", vis.1.1.2);
            ("from_known", VBool vis.1.2);
            ("to_known", VBool vis.2);
            ("layers_remaining", remaining);
            ("synthesized", VBool true)]).

Definition event (type : string) (data : value) : value :=
  VDict (dict [("type", VStr type); ("data", data)]).

(** [timing_log[role].append({"t": time.time(), "cid": cid})] *)
Definition record_timing (role cid : string) (t : float) : M unit :=
  do! tl := read timing_log in
  do! samples := lift (subscript tl role) in
  modify (set_timing_log
    (<[role := samples ++ [VDict (dict [("t", VFloat t); ("cid", VStr cid)])]]> tl)).

Definition terminal (role : string) : bool :=
  (String.eqb role "guard" || String.eqb role "exit")%bool.

Definition HOP_IPS : gmap string string :=
  <["exit" := "10.0.3.2"]> (<["middle" := "10.0.2.2"]> (<["guard" := "10.0.1.2"]> ∅)).

(** The body of the [for i, role in enumerate(roles)] loop of
    [send_circuit], up to the assignment of [prev_hop_ip]. A registered
    connection object is true in a condition. [print] and [asyncio.sleep]
    leave no trace here. *)
Definition hop (e : env) (cid : string) (pkt_base : gmap string value)
    (i : Z) (role : string) (prev_hop_ip : value) : M unit :=
  let pkt := dict_update pkt_base
               [("id", VStr (cid +:+ "-" +:+ str_int (i + 1)));
                ("layers", VInt (3 - i));
                ("prev_hop", prev_hop_ip)] in
  do! ags := read agents in
  match ags !! role with
  | Some ws =>
      (if agent_send_ok e role
       then modify (add_delivered [(ws, event "packet" (VDict pkt))])
       else raise ConnectionClosed) ;;;
      match agent_recv e role with
      | Timeout => ret tt
      | RecvFailed => raise ConnectionClosed
      | NotJSON _ => raise JSONDecodeError
      | Parsed (VDict log_msg) =>
          if eq_str (get log_msg "type" VNone) "log" then
            do! log := lift (subscript log_msg "data") in
            (if terminal role
             then record_timing role cid (time_time e (AtHop role))
             else ret tt) ;;;
            broadcast_to_browsers (browser_send_ok e (AtHop role)) (event "relay_log" log)
          else ret tt
      | Parsed _ => raise AttributeError
      end
  | None =>
      do! synth := lift (synthesize_log role pkt (strftime e role)) in
      (if terminal role
       then record_timing role cid (time_time e (AtHop role))
       else ret tt) ;;;
      broadcast_to_browsers (browser_send_ok e (AtHop role)) (event "relay_log" (VDict synth))
  end.

Fixpoint enumerate {A} (start : Z) (l : list A) : list (Z * A) :=
  match l with
  | [] => []
  | x :: rest => (start, x) :: enumerate (start + 1) rest
  end.

Fixpoint hops (e : env) (cid : string) (pkt_base : gmap string value)
    (irs : list (Z * string)) (prev_hop_ip : value) : M unit :=
  match irs with
  | [] => ret tt
  | (i, role) :: rest =>
      hop e cid pkt_base i role prev_hop_ip ;;;
      hops e cid pkt_base rest (VStr (get HOP_IPS role "?"))
  end.

Definition roles : list string := ["guard"; "middle"; "exit"].

Definition send_circuit (e : env) (src_ip dst_ip : value) : M unit :=
  do! cid := new_circuit_id in
  let src := py_or src_ip
               (VStr ("10." +:+ str_int (randint_src e).1 +:+ ".0." +:+ str_int (randint_src e).2)) in
  let dst := py_or dst_ip (VStr (rand_ip "93.184" (randint_dst e))) in
  let pkt_base := dict [("circuit_id", VStr cid); ("src", src); ("dst", dst);
                        ("size", VInt (randint_size e));
                        ("ts", VFloat (time_time e AtStart))] in
  broadcast_to_browsers (browser_send_ok e AtStart)
    (event "circuit_start" (VDict (dict [("id", VStr cid); ("src", src); ("dst", dst)]))) ;;;
  hops e cid pkt_base (enumerate 0 roles) src ;;;
  broadcast_to_browsers (browser_send_ok e AtDone)
    (event "circuit_done" (VDict (dict [("id", VStr cid)]))).

(** The context [run_ai_correlation] hands to the analysis. *)
Definition correlation_ctx (st : coord) : result (gmap string value) :=
  try! g := subscript (timing_log st) "guard" in
  try! x := subscript (timing_log st) "exit" in
  Ok (dict [("guard_events", VList (last_n 10 g));
            ("exit_events", VList (last_n 10 x));
            ("circuit_count", VInt (circuit_counter st))]).

(** [run_ai_correlation]; [analysis] stands for the remote model: given the
    context it answers with a text or fails. Every exception is caught. *)
Definition run_ai_correlation (analysis : gmap string value → result string)
    (send_ok : conn → bool) (api_key : string) : M unit :=
  if String.eqb api_key "" then ret tt
  else fun st =>
    match bindR (correlation_ctx st) analysis with
    | Ok text =>
        broadcast_to_browsers send_ok
          (event "ai_analysis" (VDict (dict [("text", VStr text)]))) st
    | Raise _ => (st, Ok tt)
    end.

(** [handler], agent branch, on a [register] message for [role]: the
    assignment [agents[role] = ws] and the [agent_connected] broadcast. *)
Definition handler_register (send_ok : conn → bool) (role : string) (ip : value)
    (ws : conn) : M unit :=
  modify (set_agents (fun a => <[role := ws]> a)) ;;;
  broadcast_to_browsers send_ok
    (event "agent_connected" (VDict (dict [("role", VStr role); ("ip", ip)]))).

(** [handler], agent branch, the [finally] clause run when the connection
    [ws] that registered as [role] closes. *)
Definition handler_agent_closed (role : string) (ws : conn) : M unit :=
  do! ags := read agents in
  if bool_decide (ags !! role = Some ws)
  then modify (set_agents (fun a => delete role a))
  else ret tt.

(** [handler], browser branch: [browsers.add(ws)] and the status reply. *)
Definition handler_browser (send_ok : bool) (ws : conn) : M unit :=
  modify (set_browsers (fun b => {[ws]} ∪ b)) ;;;
  do! ags := read agents in
  if send_ok
  then modify (add_delivered
         [(ws, event "agent_status"
                 (VDict (dict [("connected", VList (VStr <$> (map_to_list ags).*1))])))])
  else raise ConnectionClosed.

(** [handler], browser branch, one decoded message of the receive loop. *)
Definition handler_browser_message (m2 : value) : M unit :=
  match m2 with
  | VDict m =>
      if eq_str (get m "type" VNone) "send_packet"
      then modify (add_spawned (TaskCircuit (get m "src" VNone) (get m "dst" VNone)))
      else ret tt
  | _ => raise AttributeError
  end.

(** [handler], browser branch, the [finally] clause. *)
Definition handler_browser_closed (ws : conn) : M unit :=
  modify (set_browsers (fun b => b ∖ {[ws]})).

(** One turn of the [while True] loop of [auto_scheduler] after the sleep:
    the new value of the local [count]. *)
Definition scheduler_tick (e : env) (ai_key : string) (count : Z) : M Z :=
  do! bs := read browsers in
  if bool_decide (bs ≠ ∅) then
    send_circuit e VNone VNone ;;;
    let count' := count + 1 in
    if count' mod 5 =? 0
    then modify (add_spawned (TaskCorrelation ai_key)) ;;; ret count'
    else ret count'
  else ret count.

(** Finitely many turns of [auto_scheduler], one environment per turn. *)
Fixpoint auto_scheduler (es : list env) (ai_key : string) (count : Z) : M Z :=
  match es with
  | [] => ret count
  | e :: rest =>
      do! count' := scheduler_tick e ai_key count in
      auto_scheduler rest ai_key count'
  end.

(** Several circuits one after the other. *)
Fixpoint send_circuits (es : list env) : M unit :=
  match es with
  | [] => ret tt
  | e :: rest => send_circuit e VNone VNone ;;; send_circuits rest
  end.

(** [broadcast_to_browsers] next to the other coroutines. The [for]
    statement walks the module-level set [browsers] itself, and every
    [await ws.send] hands control to the event loop, where a [handler] may
    run up to its own next [await]. What such a [handler] does to [browsers]
    is one of: nothing, the [browsers.add(ws)] of a connection that has just
    announced itself as a browser, the [browsers.discard(ws)] of the [finally]
    clause of a browser connection that has closed. *)
Inductive meanwhile :=
  | Quiet
  | BrowserConnects (ws : conn)
  | BrowserCloses (ws : conn).

Definition interleave (m : meanwhile) (st : coord) : coord :=
  match m with
  | Quiet => st
  | BrowserConnects ws => set_browsers (fun b => {[ws]} ∪ b) st
  | BrowserCloses ws => set_browsers (fun b => b ∖ {[ws]}) st
  end.

(** The loop over the live set. [wss] are the members the iterator has not
    yet produced and [used] the size of the set when the iterator was made.
    Each [next()], the last one included, first compares the present size of
    the set with [used] and raises [RuntimeError] when they differ; the
    [for] statement is outside the [try], so the error leaves the loop.
    [during ws] is what happens to [browsers] while the send to [ws] is
    awaited. *)
Fixpoint broadcast_live_loop (send_ok : conn → bool) (during : conn → meanwhile)
    (msg : value) (wss : list conn) (used : nat) (dead : gset conn) (st : coord)
  : coord * result (gset conn) :=
  if (size (browsers st) =? used)%nat then
    match wss with
    | [] => (st, Ok dead)
    | ws :: rest =>
        let st1 := interleave (during ws) st in
        if send_ok ws
        then broadcast_live_loop send_ok during msg rest used dead
               (add_delivered [(ws, msg)] st1)
        else broadcast_live_loop send_ok during msg rest used ({[ws]} ∪ dead) st1
    end
  else (st, Raise RuntimeError).

(** [browsers.difference_update(dead)] is reached only when the loop ends
    without an exception. *)
Definition broadcast_to_browsers_live (send_ok : conn → bool)
    (during : conn → meanwhile) (msg : value) : M unit :=
  fun st =>
    let st0 := add_emitted msg st in
    match broadcast_live_loop send_ok during msg (elements (browsers st0))
            (size (browsers st0)) ∅ st0 with
    | (st1, Ok dead) => (set_browsers (fun b => b ∖ dead) st1, Ok tt)
    | (st1, Raise e) => (st1, Raise e)
    end.

End Coordinator.

Import Relay Coordinator.

(** * Vocabulary of the statements *)

Definition visible_fields : list string :=
  ["from_ip"; "to_ip"; "from_known"; "to_known"; "layers_remaining"].

Definition same_on (ks : list string) (d1 d2 : gmap string value) : Prop :=
  ∀ k, k ∈ ks → d1 !! k = d2 !! k.

(** The packet of the two worked examples, as [send_circuit] would tag it. *)
Definition example_guard_pkt : gmap string value :=
  dict [("src", VStr "10.3.0.5"); ("dst", VStr "93.184.10.2"); ("layers", VInt 3)].

Definition example_exit_pkt : gmap string value :=
  dict [("src", VStr "10.3.0.5"); ("dst", VStr "93.184.10.2"); ("layers", VInt 1);
        ("prev_hop", VStr "10.0.2.2")].

Definition with_circuit_id (pkt : gmap string value) : gmap string value :=
  dict_update pkt [("circuit_id", VStr "C001")].

Definition example_middle_agent : RelayAgent :=
  {| role := "middle"; coordinator := "ws://localhost:8765"; my_ip := "192.168.1.20";
     vis := {| sees_src := false; sees_dst := false; sees_prev := true; sees_next := true |};
     packet_count := 0 |}.

Definition example_middle_synth : gmap string value :=
  dict [("relay", VStr "middle"); ("circuit_id", VStr "C001"); ("ts", VStr "09:00:00");
        ("from_ip", VStr "guard-node"); ("to_ip", VStr "exit-node");
        ("from_known", VBool true); ("to_known", VBool true);
        ("layers_remaining", VInt 0); ("synthesized", VBool true)].

Definition fields (ks : list string) (r : result (gmap string value))
  : result (list (option value)) :=
  try! d := r in Ok ((fun k => d !! k) <$> ks).

Inductive outcome :=
  | Skipped
  | Live (log : value)
  | Synthesized (log : gmap string value).

Definition outcome_events (o : outcome) : list value :=
  match o with
  | Skipped => []
  | Live log => [event "relay_log" log]
  | Synthesized s => [event "relay_log" (VDict s)]
  end.

Definition outcome_of (e : env) (ags : gmap string conn) (role : string)
    (o : outcome) : Prop :=
  match o with
  | Skipped =>
      is_Some (ags !! role) ∧
      (agent_recv e role = Timeout ∨
       ∃ m, agent_recv e role = Parsed (VDict m) ∧
            eq_str (get m "type" VNone) "log" = false)
  | Live log =>
      is_Some (ags !! role) ∧
      ∃ m, agent_recv e role = Parsed (VDict m) ∧
           eq_str (get m "type" VNone) "log" = true ∧ m !! "data" = Some log
  | Synthesized s =>
      ags !! role = None ∧
      s !! "relay" = Some (VStr role) ∧ s !! "synthesized" = Some (VBool true)
  end.

(** What a coroutine leaves alone. *)
Definition frame (st st' : coord) : Prop :=
  agents st' = agents st ∧ circuit_counter st' = circuit_counter st ∧
  spawned st' = spawned st ∧
  ∀ k, is_Some (timing_log st !! k) → is_Some (timing_log st' !! k).

Definition event_type (v : value) : option value :=
  match v with
  | VDict m => m !! "type"
  | _ => None
  end.

Definition circuit_id_after (st : coord) : string :=
  "C" +:+ zfill 3 (str_int (circuit_counter st + 1)).

(** The timing log has its two lists, as at start-up. *)
Definition timing_ready (st : coord) : Prop :=
  is_Some (timing_log st !! "guard") ∧ is_Some (timing_log st !! "exit").

Definition example_log_entry : gmap string value :=
  dict [("relay", VStr "guard"); ("relay_ip", VStr "192.168.1.20");
        ("circuit_id", VStr "C001"); ("ts", VStr "09:00:00");
        ("from_ip", VStr "10.3.0.5"); ("to_ip", VStr "middle");
        ("from_known", VBool true); ("to_known", VBool true);
        ("layers_remaining", VInt 2); ("packet_size_bytes", VInt 700)].

Definition example_env (recv : string → reply) : env :=
  {| randint_src := (3, 5); randint_dst := (10, 2); randint_size := 700;
     time_time := fun _ => 1700000000.25%float;
     strftime := fun _ => "09:00:00";
     agent_send_ok := fun _ => true;
     agent_recv := recv;
     browser_send_ok := fun _ _ => true |}.

(** One observer watching, no endpoint. *)
Definition watched : coord := set_browsers (fun _ => {[1%positive]}) initial.

(** One observer watching, a live guard on connection 7. *)
Definition guard_live : coord :=
  set_agents (fun _ => <["guard" := 7%positive]> ∅) watched.

(** A live guard and a live exit; the middle hop has no endpoint. *)
Definition guard_exit_live : coord :=
  set_agents (fun _ => <["exit" := 9%positive]> (<["guard" := 7%positive]> ∅)) watched.

Definition guard_answers_exit_silent (role : string) : reply :=
  if String.eqb role "guard"
  then Parsed (event "log" (VDict example_log_entry))
  else Timeout.

Definition quiet_env : env := example_env (fun _ => Timeout).

(** The connections the registry holds for a role, read off its items. *)
Definition handles (role : string) (a : gmap string conn) : list conn :=
  (filter (fun kv : string * conn => kv.1 = role) (map_to_list a)).*2.

(** Registrations and disconnections of relay agents, as [handler] sees
    them. *)
Inductive agent_event :=
  | Registers (role : string) (ip : value) (ws : conn)
  | Closes (role : string) (ws : conn).

Definition on_agent_event (send_ok : conn → bool) (ev : agent_event) : M unit :=
  match ev with
  | Registers role ip ws => handler_register send_ok role ip ws
  | Closes role ws => handler_agent_closed role ws
  end.

Fixpoint on_agent_events (send_ok : conn → bool) (evs : list agent_event) : M unit :=
  match evs with
  | [] => ret tt
  | ev :: rest => on_agent_event send_ok ev ;;; on_agent_events send_ok rest
  end.

(** The objects [x - 1] is defined on. *)
Definition is_number (x : value) : bool :=
  match x with
  | VInt _ | VBool _ | VFloat _ => true
  | _ => false
  end.

(** The packet entries a role's live log entry does not depend on. *)
Definition hidden_from (role : string) : list string :=
  if String.eqb role "guard" then ["dst"; "prev_hop"]
  else if String.eqb role "middle" then ["src"; "dst"]
  else if String.eqb role "exit" then ["src"]
  else [].

(** The packet [send_circuit] builds for hop [i]. *)
Definition hop_packet (cid : string) (pkt_base : gmap string value) (i : Z)
    (prev_hop_ip : value) : gmap string value :=
  dict_update pkt_base
    [("id", VStr (cid +:+ "-" +:+ str_int (i + 1)));
     ("layers", VInt (3 - i));
     ("prev_hop", prev_hop_ip)].

(** The sample [send_circuit] records for a terminal hop. *)
Definition timing_sample (t : float) (cid : string) : value :=
  VDict (dict [("t", VFloat t); ("cid", VStr cid)]).

(** The source and destination [send_circuit] settles on. *)
Definition circuit_src (e : env) (src_ip : value) : value :=
  py_or src_ip
    (VStr ("10." +:+ str_int (randint_src e).1 +:+ ".0." +:+ str_int (randint_src e).2)).

Definition circuit_dst (e : env) (dst_ip : value) : value :=
  py_or dst_ip (VStr (rand_ip "93.184" (randint_dst e))).

(** One broadcast reaching every observer. *)
Definition to_all (bs : gset conn) (msg : value) : list (conn * value) :=
  (fun ws => (ws, msg)) <$> elements bs.

(** The messages one connection has been sent, in order. *)
Definition received (ws : conn) (out : list (conn * value)) : list value :=
  (filter (fun p : conn * value => p.1 = ws) out).*2.

(** What one circuit with id [cid], run in environment [e], may do to the
    state, as seen from the observer [ws]: the registry is untouched; every
    timing list only grows at its end, by samples of this circuit, and only
    for terminal roles; an observer whose sends succeed stays in the set and
    is sent exactly the events broadcast meanwhile. *)
Definition circuit_step (e : env) (cid : string) (ws : conn) (st st' : coord) : Prop :=
  agents st' = agents st ∧
  (∀ role l, timing_log st !! role = Some l →
     ∃ l', timing_log st' !! role = Some (l ++ l') ∧
           (terminal role = false → l' = []) ∧
           Forall (fun v => ∃ t, v = timing_sample t cid) l') ∧
  (ws ∈ browsers st → (∀ site, browser_send_ok e site ws = true) →
   (∀ role, agents st !! role ≠ Some ws) →
     ws ∈ browsers st' ∧
     ∃ evs out, emitted st' = emitted st ++ evs ∧
                delivered st' = delivered st ++ out ∧
                received ws out = evs).

(** Every run of the coroutine [m] is a step of relation [R]. *)
Definition sat (R : coord → coord → Prop) {A} (m : M A) : Prop :=
  ∀ st st' r, m st = (st', r) → R st st'.



(** Whether what happens during one await changes the observer set. *)
Definition changes_set (m : meanwhile) (bs : gset conn) : bool :=
  match m with
  | Quiet => false
  | BrowserConnects ws => bool_decide (ws ∉ bs)
  | BrowserCloses ws => bool_decide (ws ∈ bs)
  end.

(** Four observers watching. *)
Definition four_watching : coord :=
  set_browsers (fun _ => {[1%positive; 2%positive; 3%positive; 4%positive]}) initial.

(** The send to observer 3 fails; every other send succeeds. *)
Definition send_to_3_fails (ws : conn) : bool := negb (ws =? 3)%positive.

(** Observer 2 closes its connection while the send to observer 4 is
    awaited. *)
Definition observer_2_closes (ws : conn) : meanwhile :=
  if (ws =? 4)%positive then BrowserCloses 2%positive else Quiet.

Definition example_event : value :=
  event "circuit_done" (VDict (dict [("circuit_id", VStr "C001")])).





(** * Properties *)

(** ** Dictionaries and results *)

Ltac dict_lookup :=
  unfold dict, dict_update; cbn [foldl fst snd];
  repeat first [ rewrite lookup_insert_eq | rewrite lookup_insert_ne by done ].

Lemma subscript_Ok {V} (d : gmap string V) k v :
  subscript d k = Ok v ↔ d !! k = Some v.
Proof. unfold subscript. destruct (d !! k); split; congruence. Qed.

Lemma get_Some {V} (d : gmap string V) k v dflt :
  d !! k = Some v → get d k dflt = v.
Proof. unfold get. by intros ->. Qed.

Lemma bindR_Ok {A B} (r : result A) (k : A → result B) b :
  bindR r k = Ok b ↔ ∃ a, r = Ok a ∧ k a = Ok b.
Proof.
  destruct r as [a|e]; simpl; split.
  - eauto.
  - by intros (? & [= <-] & ?).
  - discriminate.
  - by intros (? & ? & ?).
Qed.

(** ** The visibility rules: live agent against synthesis *)

Lemma init_Ok role host ip agent :
  Relay.init role host ip = Ok agent →
  role = "guard" ∨ role = "middle" ∨ role = "exit".
Proof.
  unfold Relay.init. intros (v & Hv%subscript_Ok & _)%bindR_Ok.
  unfold ROLE_VISIBILITY in Hv.
  apply lookup_insert_Some in Hv as [[<- _]|[_ Hv]]; [by auto|].
  apply lookup_insert_Some in Hv as [[<- _]|[_ Hv]]; [by auto|].
  apply lookup_insert_Some in Hv as [[<- _]|[_ Hv]]; [by auto|].
  by rewrite lookup_empty in Hv.
Qed.

(** What [synthesize_log] needs of a packet, and that it then returns. *)
Lemma synthesize_log_total role pkt now src dst cid n :
  role ∈ roles →
  pkt !! "src" = Some src → pkt !! "dst" = Some dst →
  pkt !! "circuit_id" = Some cid → pkt !! "layers" = Some (VInt n) →
  ∃ synth, synthesize_log role pkt now = Ok synth ∧
    synth !! "relay" = Some (VStr role) ∧
    synth !! "synthesized" = Some (VBool true) ∧
    synth !! "layers_remaining" = Some (VInt (n - 1)).
Proof.
  intros Hr Hsrc Hdst Hcid Hly. unfold synthesize_log, subscript at 1 2 4 5.
  rewrite Hsrc, Hdst, Hcid, Hly. cbn [bindR sub1].
  unfold roles in Hr. rewrite !elem_of_cons, elem_of_nil in Hr.
  destruct Hr as [-> | [-> | [-> | []]]];
    (eexists; split; [reflexivity|]); dict_lookup; done.
Qed.

(** The two paths side by side, field by field. *)
Lemma synthesize_log_build_log_entry_fields
    role host ip agent pkt t1 t2 synth :
  Relay.init role host ip = Ok agent →
  synthesize_log role pkt t1 = Ok synth →
  ∃ entry, build_log_entry agent pkt t2 = Ok entry ∧
    synth !! "from_known" = entry !! "from_known" ∧
    synth !! "to_known" = entry !! "to_known" ∧
    synth !! "layers_remaining" = entry !! "layers_remaining" ∧
    (role = "guard" →
       synth !! "from_ip" = entry !! "from_ip" ∧
       synth !! "to_ip" = Some (VStr "middle-relay") ∧
       entry !! "to_ip" = Some (VStr "middle")) ∧
    (role = "middle" →
       synth !! "from_ip" = Some (VStr "guard-node") ∧
       entry !! "from_ip" = Some (get pkt "prev_hop" (VStr "???")) ∧
       synth !! "to_ip" = Some (VStr "exit-node") ∧
       entry !! "to_ip" = Some (VStr "exit")) ∧
    (role = "exit" →
       synth !! "from_ip" = Some (VStr "middle-relay") ∧
       entry !! "from_ip" = Some (get pkt "prev_hop" (VStr "???")) ∧
       synth !! "to_ip" = entry !! "to_ip").
Proof.
  intros Hinit Hs.
  pose proof (init_Ok _ _ _ _ Hinit) as Hr.
  unfold synthesize_log in Hs.
  apply bindR_Ok in Hs as (src & Hsrc & Hs).
  apply bindR_Ok in Hs as (dst & Hdst & Hs).
  apply bindR_Ok in Hs as (v & Hv & Hs).
  apply bindR_Ok in Hs as (cid & Hcid & Hs).
  apply bindR_Ok in Hs as (ly & Hly & Hs).
  apply bindR_Ok in Hs as (rem & Hrem & [= <-]).
  apply subscript_Ok in Hly.
  unfold Relay.init in Hinit.
  destruct Hr as [-> | [-> | ->]];
    apply bindR_Ok in Hinit as (w & Hw & [= <-]);
    vm_compute in Hw; injection Hw as <-;
    vm_compute in Hv; injection Hv as <-;
    unfold build_log_entry; cbn [vis sees_src sees_dst sees_prev sees_next Relay.role];
    rewrite (get_Some _ _ _ _ Hly);
    rewrite ?Hsrc, ?Hdst, ?Hrem; cbn [bindR].
  all: change (subscript NEXT_HOP "guard") with (Ok (A:=string) "middle") || idtac.
  all: change (subscript NEXT_HOP "middle") with (Ok (A:=string) "exit") || idtac.
  all: cbn [bindR].
  all: eexists; (split; [reflexivity|]); dict_lookup; repeat split; try done.
Qed.

(** C1 (as amended). For a role of the table and a packet on which the
    synthesis path returns an entry, the live path returns one too, and the
    two agree on [from_known], [to_known] and [layers_remaining], on
    [from_ip] for the guard and on [to_ip] for the exit. The other address
    fields differ: synthesis writes the fixed labels [middle-relay],
    [guard-node] and [exit-node], the live agent the packet's previous hop
    and the name of the next role. *)
Theorem synthesize_log_agrees_with_build_log_entry
    role host ip agent pkt t1 t2 synth :
  Relay.init role host ip = Ok agent →
  synthesize_log role pkt t1 = Ok synth →
  ∃ entry, build_log_entry agent pkt t2 = Ok entry ∧
    synth !! "from_known" = entry !! "from_known" ∧
    synth !! "to_known" = entry !! "to_known" ∧
    synth !! "layers_remaining" = entry !! "layers_remaining" ∧
    (role = "guard" →
       synth !! "from_ip" = entry !! "from_ip" ∧
       synth !! "to_ip" = Some (VStr "middle-relay") ∧
       entry !! "to_ip" = Some (VStr "middle")) ∧
    (role = "middle" →
       synth !! "from_ip" = Some (VStr "guard-node") ∧
       entry !! "from_ip" = Some (get pkt "prev_hop" (VStr "???")) ∧
       synth !! "to_ip" = Some (VStr "exit-node") ∧
       entry !! "to_ip" = Some (VStr "exit")) ∧
    (role = "exit" →
       synth !! "from_ip" = Some (VStr "middle-relay") ∧
       entry !! "from_ip" = Some (get pkt "prev_hop" (VStr "???")) ∧
       synth !! "to_ip" = entry !! "to_ip").
Proof. apply synthesize_log_build_log_entry_fields. Qed.

Lemma synthesize_log_agrees_with_build_log_entry_witness :
  ∃ entry,
    build_log_entry example_middle_agent (with_circuit_id example_exit_pkt) "09:00:01"
      = Ok entry ∧
    example_middle_synth !! "layers_remaining" = entry !! "layers_remaining".
Proof.
  assert (Hinit : Relay.init "middle" "localhost:8765" "192.168.1.20"
                  = Ok example_middle_agent) by (vm_compute; reflexivity).
  assert (Hsynth : synthesize_log "middle" (with_circuit_id example_exit_pkt) "09:00:00"
                   = Ok example_middle_synth) by (vm_compute; reflexivity).
  destruct (synthesize_log_agrees_with_build_log_entry
              _ _ _ _ _ _ "09:00:01" _ Hinit Hsynth) as (entry & He & _ & _ & Hl & _).
  exists entry. split; assumption.
Defined.

(** C1 (as stated) fails: for the guard, on a packet [send_circuit] could
    build, both paths return an entry and the two disagree on [to_ip]. *)
Lemma synthesize_log_differs_from_build_log_entry :
  ∃ agent synth entry,
    Relay.init "guard" "localhost:8765" "192.168.1.20" = Ok agent ∧
    synthesize_log "guard" (with_circuit_id example_guard_pkt) "09:00:00" = Ok synth ∧
    build_log_entry agent (with_circuit_id example_guard_pkt) "09:00:00" = Ok entry ∧
    synth !! "to_ip" = Some (VStr "middle-relay") ∧
    entry !! "to_ip" = Some (VStr "middle") ∧
    ¬ same_on visible_fields synth entry.
Proof.
  pose (pkt := with_circuit_id example_guard_pkt).
  destruct (synthesize_log_total "guard" pkt "09:00:00"
              (VStr "10.3.0.5") (VStr "93.184.10.2") (VStr "C001") 3)
    as (synth & Hs & _); [apply elem_of_cons; by left | reflexivity..|].
  destruct (Relay.init "guard" "localhost:8765" "192.168.1.20") as [agent|] eqn:Ha;
    [|discriminate Ha].
  destruct (synthesize_log_build_log_entry_fields
              _ _ _ _ _ _ "09:00:00" _ Ha Hs) as (entry & He & _ & _ & _ & Hg & _).
  destruct (Hg eq_refl) as (_ & Hsyn & Hlive).
  exists agent, synth, entry. do 5 (split; [done|]).
  intros Hsame.
  assert (Hto : synth !! "to_ip" = entry !! "to_ip")
    by (apply Hsame; unfold visible_fields;
        apply elem_of_cons; right; apply elem_of_cons; by left).
  rewrite Hsyn, Hlive in Hto. discriminate Hto.
Qed.

(** C5 (as amended). On the live path the two worked examples give the
    entries of the specification: the guard reports the source and the label
    [middle], the exit reports the previous hop (the packet's [prev_hop]
    entry) and the destination. On the synthesis path, for the same packets
    carrying a circuit id, the guard's [to_ip] is the label [middle-relay]
    and the exit's [from_ip] is the label [middle-relay]; the remaining
    fields are those of the live path. *)
Theorem visibility_examples (host ip now : string) :
  fields visible_fields
    (try! agent := Relay.init "guard" host ip in build_log_entry agent example_guard_pkt now)
    = Ok [Some (VStr "10.3.0.5"); Some (VStr "middle");
          Some (VBool true); Some (VBool true); Some (VInt 2)] ∧
  fields visible_fields
    (try! agent := Relay.init "exit" host ip in build_log_entry agent example_exit_pkt now)
    = Ok [Some (VStr "10.0.2.2"); Some (VStr "93.184.10.2");
          Some (VBool true); Some (VBool true); Some (VInt 0)] ∧
  fields visible_fields (synthesize_log "guard" (with_circuit_id example_guard_pkt) now)
    = Ok [Some (VStr "10.3.0.5"); Some (VStr "middle-relay");
          Some (VBool true); Some (VBool true); Some (VInt 2)] ∧
  fields visible_fields (synthesize_log "exit" (with_circuit_id example_exit_pkt) now)
    = Ok [Some (VStr "middle-relay"); Some (VStr "93.184.10.2");
          Some (VBool true); Some (VBool true); Some (VInt 0)].
Proof. repeat split; vm_compute; reflexivity. Qed.

(** C5 (as stated) fails on the synthesis path: on the bare example packet
    [synthesize_log] raises for want of a circuit id, and with one it
    answers [middle-relay] where the claim has [middle] (guard) and
    [10.0.2.2] (exit). *)
Lemma visibility_examples_synthesis_differs :
  synthesize_log "guard" example_guard_pkt "09:00:00" = Raise (KeyError "circuit_id") ∧
  fields visible_fields
    (synthesize_log "guard" (with_circuit_id example_guard_pkt) "09:00:00")
    ≠ Ok [Some (VStr "10.3.0.5"); Some (VStr "middle");
          Some (VBool true); Some (VBool true); Some (VInt 2)] ∧
  fields visible_fields
    (synthesize_log "exit" (with_circuit_id example_exit_pkt) "09:00:00")
    ≠ Ok [Some (VStr "10.0.2.2"); Some (VStr "93.184.10.2");
          Some (VBool true); Some (VBool true); Some (VInt 0)].
Proof. repeat split; vm_compute; congruence. Qed.

(** ** Event fan-out *)

Lemma broadcast_loop_spec send_ok msg wss dead out :
  broadcast_loop send_ok msg wss dead out =
    (list_to_set (filter (fun ws => send_ok ws = false) wss) ∪ dead,
     out ++ ((fun ws => (ws, msg)) <$> filter (fun ws => send_ok ws = true) wss)).
Proof.
  revert dead out. induction wss as [|ws wss IH]; intros dead out; simpl.
  - f_equal; [set_solver | by rewrite app_nil_r].
  - rewrite !filter_cons. destruct (send_ok ws) eqn:Hok; rewrite IH.
    + destruct (decide (true = false)) as [?|_]; [discriminate|].
      destruct (decide (true = true)) as [_|?]; [|congruence].
      f_equal. by rewrite fmap_cons, <- app_assoc.
    + destruct (decide (false = false)) as [_|?]; [|congruence].
      destruct (decide (false = true)) as [?|_]; [discriminate|].
      f_equal. rewrite list_to_set_cons. set_solver.
Qed.

Lemma broadcast_to_browsers_eq send_ok msg st :
  broadcast_to_browsers send_ok msg st =
    (set_browsers
       (fun b => b ∖ (list_to_set (filter (fun ws => send_ok ws = false) (elements b)) ∪ ∅))
       (add_delivered
          ((fun ws => (ws, msg)) <$> filter (fun ws => send_ok ws = true) (elements (browsers st)))
          (add_emitted msg st)),
     Ok tt).
Proof.
  unfold broadcast_to_browsers. rewrite broadcast_loop_spec. reflexivity.
Qed.

(** A broadcast during which no handler changes the observer set returns,
    whatever sends fail; afterwards the observer set is the former set without
    exactly the observers whose send failed, and the message has been sent
    once to every observer whose send succeeded, and to nobody else. The
    registry, the counter and the timing samples are untouched. *)
Lemma broadcast_to_browsers_best_effort send_ok msg st :
  ∃ st' out,
    broadcast_to_browsers send_ok msg st = (st', Ok tt) ∧
    (∀ ws, ws ∈ browsers st' ↔ ws ∈ browsers st ∧ send_ok ws = true) ∧
    delivered st' = delivered st ++ out ∧
    NoDup out ∧
    (∀ ws m, (ws, m) ∈ out ↔ m = msg ∧ ws ∈ browsers st ∧ send_ok ws = true) ∧
    emitted st' = emitted st ++ [msg] ∧
    agents st' = agents st ∧ circuit_counter st' = circuit_counter st ∧
    timing_log st' = timing_log st ∧ spawned st' = spawned st.
Proof.
  eexists _, _. split; [apply broadcast_to_browsers_eq|]. simpl.
  split; [|split; [reflexivity|split; [|split]]].
  - intros ws. rewrite elem_of_difference, elem_of_union, elem_of_list_to_set,
      list_elem_of_filter, elem_of_elements.
    split.
    + intros [Hin Hn]. split; [done|].
      destruct (send_ok ws) eqn:Hok; [done|]. exfalso. apply Hn. by left.
    + intros [Hin Hok]. split; [done|]. intros [[Hf _]|[]%not_elem_of_empty].
      congruence.
  - apply NoDup_fmap_2; [by intros ?? [= ->]|].
    apply NoDup_filter, NoDup_elements.
  - intros ws m. rewrite list_elem_of_fmap. split.
    + intros (ws' & [= -> ->] & Hin).
      apply list_elem_of_filter in Hin as [Hok Hin%elem_of_elements]. done.
    + intros (-> & Hin & Hok). exists ws. split; [done|].
      apply list_elem_of_filter. by rewrite elem_of_elements.
  - done.
Qed.

(** ** Event fan-out beside the connection handlers *)

Lemma interleave_fields m st :
  agents (interleave m st) = agents st ∧
  circuit_counter (interleave m st) = circuit_counter st ∧
  timing_log (interleave m st) = timing_log st ∧
  emitted (interleave m st) = emitted st ∧
  delivered (interleave m st) = delivered st ∧
  spawned (interleave m st) = spawned st.
Proof. by destruct m. Qed.

Lemma interleave_unchanged m st :
  changes_set m (browsers st) = false → interleave m st = st.
Proof.
  destruct st as [ag bs n tl em de sp]. destruct m as [|ws|ws]; simpl; [done|..].
  - intros Hin%bool_decide_eq_false. unfold set_browsers. simpl. f_equal.
    apply dec_stable in Hin. set_solver.
  - intros Hin%bool_decide_eq_false. unfold set_browsers. simpl. f_equal.
    set_solver.
Qed.

Lemma interleave_changed m st :
  changes_set m (browsers st) = true →
  size (browsers (interleave m st)) ≠ size (browsers st).
Proof.
  destruct m as [|ws|ws]; simpl; [done|..]; intros Hin%bool_decide_eq_true.
  - rewrite size_union by set_solver. rewrite size_singleton. lia.
  - pose proof (size_union_alt {[ws]} (browsers st)) as Hsz.
    assert ({[ws]} ∪ browsers st = browsers st) as Heq by set_solver.
    rewrite Heq, size_singleton in Hsz. lia.
Qed.

Lemma broadcast_live_loop_stale send_ok during msg wss used dead st :
  size (browsers st) ≠ used →
  broadcast_live_loop send_ok during msg wss used dead st = (st, Raise RuntimeError).
Proof.
  intros Hne. apply Nat.eqb_neq in Hne. destruct wss; simpl; by rewrite Hne.
Qed.

(** When nothing changes the observer set during the sends, the loop over
    the live set is the loop over its members. *)
Lemma broadcast_live_loop_quiet send_ok during msg wss dead st :
  (∀ ws, ws ∈ wss → changes_set (during ws) (browsers st) = false) →
  broadcast_live_loop send_ok during msg wss (size (browsers st)) dead st =
    (add_delivered
       ((fun ws => (ws, msg)) <$> filter (fun ws => send_ok ws = true) wss) st,
     Ok (list_to_set (filter (fun ws => send_ok ws = false) wss) ∪ dead)).
Proof.
  revert dead st. induction wss as [|ws wss IH]; intros dead st Hq;
    cbn [broadcast_live_loop]; rewrite Nat.eqb_refl.
  - destruct st. unfold add_delivered. simpl. rewrite app_nil_r.
    f_equal. f_equal. set_solver.
  - rewrite interleave_unchanged by (apply Hq; by left).
    rewrite !filter_cons. destruct (send_ok ws) eqn:Hok.
    + destruct (decide (true = false)) as [?|_]; [discriminate|].
      destruct (decide (true = true)) as [_|?]; [|congruence].
      change (size (browsers st)) with (size (browsers (add_delivered [(ws, msg)] st))).
      rewrite IH by (intros w Hw; apply Hq; by right).
      f_equal. destruct st. unfold add_delivered. simpl. by rewrite <- app_assoc.
    + destruct (decide (false = false)) as [_|?]; [|congruence].
      destruct (decide (false = true)) as [?|_]; [discriminate|].
      rewrite IH by (intros w Hw; apply Hq; by right).
      f_equal. f_equal. rewrite list_to_set_cons. set_solver.
Qed.

Lemma broadcast_to_browsers_live_quiet send_ok during msg st :
  (∀ ws, ws ∈ browsers st → changes_set (during ws) (browsers st) = false) →
  broadcast_to_browsers_live send_ok during msg st =
    broadcast_to_browsers send_ok msg st.
Proof.
  intros Hq. unfold broadcast_to_browsers_live.
  rewrite broadcast_live_loop_quiet
    by (intros ws Hin%elem_of_elements; by apply Hq).
  rewrite broadcast_to_browsers_eq. reflexivity.
Qed.

(** A change of the observer set during any of the sends makes the loop
    raise: the sends made so far stay made, the members after the change
    are not served, and no failing observer is removed. *)
Lemma broadcast_live_loop_raises send_ok during msg wss dead st :
  (∃ ws, ws ∈ wss ∧ changes_set (during ws) (browsers st) = true) →
  ∃ st' out,
    broadcast_live_loop send_ok during msg wss (size (browsers st)) dead st =
      (st', Raise RuntimeError) ∧
    size (browsers st') ≠ size (browsers st) ∧
    delivered st' = delivered st ++ out ∧
    (∀ p, p ∈ out → p.2 = msg ∧ p.1 ∈ wss ∧ send_ok p.1 = true) ∧
    (length out ≤ length wss)%nat ∧
    agents st' = agents st ∧ circuit_counter st' = circuit_counter st ∧
    timing_log st' = timing_log st ∧ emitted st' = emitted st ∧
    spawned st' = spawned st.
Proof.
  revert dead st. induction wss as [|ws wss IH]; intros dead st (w & Hin & Hch).
  - by apply elem_of_nil in Hin.
  - cbn [broadcast_live_loop]. rewrite Nat.eqb_refl.
    destruct (changes_set (during ws) (browsers st)) eqn:Hws.
    + pose proof (interleave_changed _ _ Hws) as Hne.
      pose proof (interleave_fields (during ws) st) as (Ha & Hc & Ht & He & Hd & Hs).
      destruct (send_ok ws) eqn:Hok.
      * rewrite broadcast_live_loop_stale by exact Hne.
        eexists _, [(ws, msg)]. split; [reflexivity|].
        cbn [agents circuit_counter timing_log emitted spawned delivered browsers
             add_delivered].
        split; [exact Hne|]. split; [by rewrite Hd|].
        split; [|split; [simpl; lia|by rewrite Ha, Hc, Ht, He, Hs]].
        intros p ->%list_elem_of_singleton. simpl.
        split; [done|]. split; [by left|done].
      * rewrite broadcast_live_loop_stale by exact Hne.
        eexists _, []. split; [reflexivity|]. split; [exact Hne|].
        split; [by rewrite app_nil_r|].
        split; [|split; [simpl; lia|by rewrite Ha, Hc, Ht, He, Hs]].
        intros p Hp. by apply elem_of_nil in Hp.
    + rewrite interleave_unchanged by exact Hws.
      assert (∃ w', w' ∈ wss ∧ changes_set (during w') (browsers st) = true) as Hrest.
      { apply elem_of_cons in Hin as [->|Hin]; [congruence|]. by exists w. }
      destruct (send_ok ws) eqn:Hok.
      * change (size (browsers st))
          with (size (browsers (add_delivered [(ws, msg)] st))).
        destruct (IH dead (add_delivered [(ws, msg)] st) Hrest)
          as (st' & out & Hrun & Hne & Hd & Hout & Hlen & Hfr).
        exists st', ((ws, msg) :: out). split; [exact Hrun|]. split; [exact Hne|].
        split; [rewrite Hd; simpl; by rewrite <- app_assoc|].
        split; [|split; [simpl; lia|exact Hfr]].
        intros p [->|Hp]%elem_of_cons.
        -- simpl. split; [done|]. split; [by left|done].
        -- destruct (Hout p Hp) as (? & ? & ?). split; [done|]. split; [by right|done].
      * destruct (IH ({[ws]} ∪ dead) st Hrest)
          as (st' & out & Hrun & Hne & Hd & Hout & Hlen & Hfr).
        exists st', out. split; [exact Hrun|]. split; [exact Hne|].
        split; [exact Hd|]. split; [|split; [simpl; lia|exact Hfr]].
        intros p Hp. destruct (Hout p Hp) as (? & ? & ?).
        split; [done|]. split; [by right|done].
Qed.

Lemma broadcast_to_browsers_live_raises send_ok during msg st :
  (∃ ws, ws ∈ browsers st ∧ changes_set (during ws) (browsers st) = true) →
  ∃ st' out,
    broadcast_to_browsers_live send_ok during msg st = (st', Raise RuntimeError) ∧
    size (browsers st') ≠ size (browsers st) ∧
    delivered st' = delivered st ++ out ∧
    (∀ p, p ∈ out → p.2 = msg ∧ p.1 ∈ browsers st ∧ send_ok p.1 = true) ∧
    emitted st' = emitted st ++ [msg] ∧
    agents st' = agents st ∧ circuit_counter st' = circuit_counter st ∧
    timing_log st' = timing_log st ∧ spawned st' = spawned st.
Proof.
  intros (w & Hin & Hch). unfold broadcast_to_browsers_live.
  destruct (broadcast_live_loop_raises send_ok during msg
              (elements (browsers (add_emitted msg st))) ∅ (add_emitted msg st))
    as (st' & out & Hrun & Hne & Hd & Hout & _ & Ha & Hc & Ht & He & Hs).
  { exists w. split; [by apply elem_of_elements|exact Hch]. }
  rewrite Hrun. exists st', out. split; [reflexivity|]. split; [exact Hne|].
  split; [exact Hd|]. split; [|by rewrite Ha, Hc, Ht, He, Hs].
  intros p Hp. destruct (Hout p Hp) as (? & Hel%elem_of_elements & ?). done.
Qed.

(** C8. Four observers are watching, and the loop reaches them in the
    order 3, 4, 2, 1. The send to observer 3 fails. The send to observer 4
    succeeds, and while it is awaited observer 2 closes its connection, so
    that its handler discards it from the set. The broadcast then raises
    [RuntimeError] at the next step of its loop: observer 3, whose send
    failed, is still in the set, and observer 1, connected and with a working
    send, has been sent nothing. With the same failing send and no change of
    the set during the loop the broadcast returns, removes observer 3 and
    serves observers 4, 2 and 1. *)
Theorem broadcast_to_browsers_set_changed :
  elements (browsers four_watching) = [3; 4; 2; 1]%positive ∧
  (∃ st',
     broadcast_to_browsers_live send_to_3_fails observer_2_closes example_event
       four_watching = (st', Raise RuntimeError) ∧
     (∀ ws, ws ∈ browsers st' ↔ ws = 1%positive ∨ ws = 3%positive ∨ ws = 4%positive) ∧
     delivered st' = [(4%positive, example_event)] ∧
     emitted st' = [example_event]) ∧
  (∃ st',
     broadcast_to_browsers_live send_to_3_fails (fun _ => Quiet) example_event
       four_watching = (st', Ok tt) ∧
     (∀ ws, ws ∈ browsers st' ↔ ws = 1%positive ∨ ws = 2%positive ∨ ws = 4%positive) ∧
     delivered st' = [(4%positive, example_event); (2%positive, example_event);
                      (1%positive, example_event)]).
Proof.
  split; [vm_compute; reflexivity|]. split.
  - eexists. split; [vm_compute; reflexivity|].
    split; [|by vm_compute]. intros ws. rewrite <- elem_of_elements.
    replace (elements _) with [3; 4; 1]%positive by (vm_compute; reflexivity).
    rewrite !elem_of_cons, elem_of_nil. tauto.
  - eexists. split; [vm_compute; reflexivity|].
    split; [|by vm_compute]. intros ws. rewrite <- elem_of_elements.
    replace (elements _) with [4; 2; 1]%positive by (vm_compute; reflexivity).
    rewrite !elem_of_cons, elem_of_nil. tauto.
Qed.

(** ** One hop *)

Ltac fields_simpl :=
  cbn [agents browsers circuit_counter timing_log emitted delivered spawned
       set_agents set_browsers set_circuit_counter set_timing_log
       add_emitted add_delivered add_spawned fst snd] in *.

Lemma frame_refl st : frame st st.
Proof. by repeat split. Qed.

Lemma frame_trans st1 st2 st3 : frame st1 st2 → frame st2 st3 → frame st1 st3.
Proof.
  intros (Ha & Hc & Hs & Ht) (Ha' & Hc' & Hs' & Ht').
  repeat split; try congruence. auto.
Qed.

Lemma bind_Ok_inv {A B} (m : M A) (k : A → M B) st st' b :
  bind m k st = (st', Ok b) →
  ∃ a st1, m st = (st1, Ok a) ∧ k a st1 = (st', Ok b).
Proof.
  unfold bind. destruct (m st) as [st1 [a|ex]]; [eauto|]. intros [= _ ?].
Qed.

Lemma record_timing_Some role cid t st l :
  timing_log st !! role = Some l →
  record_timing role cid t st =
    (set_timing_log
       (<[role := l ++ [VDict (dict [("t", VFloat t); ("cid", VStr cid)])]]> (timing_log st)) st,
     Ok tt).
Proof.
  intros Hl. unfold record_timing, bind, read, lift, modify, subscript.
  by rewrite Hl.
Qed.

Lemma record_timing_None role cid t st :
  timing_log st !! role = None →
  record_timing role cid t st = (st, Raise (KeyError role)).
Proof.
  intros Hl. unfold record_timing, bind, read, lift, modify, subscript.
  by rewrite Hl.
Qed.



Lemma synthesize_log_Ok role pkt now s :
  synthesize_log role pkt now = Ok s →
  s !! "relay" = Some (VStr role) ∧ s !! "synthesized" = Some (VBool true).
Proof.
  unfold synthesize_log. intros Hs.
  apply bindR_Ok in Hs as (src & _ & Hs).
  apply bindR_Ok in Hs as (dst & _ & Hs).
  apply bindR_Ok in Hs as (v & _ & Hs).
  apply bindR_Ok in Hs as (cid & _ & Hs).
  apply bindR_Ok in Hs as (ly & _ & Hs).
  apply bindR_Ok in Hs as (rem & _ & [= <-]).
  split; dict_lookup; done.
Qed.

Ltac run := cbn [bind read ret raise lift modify].

Lemma bind_unfold {A B} (m : M A) (k : A → M B) st :
  bind m k st =
    match m st with
    | (st', Ok a) => k a st'
    | (st', Raise ex) => (st', Raise ex)
    end.
Proof. reflexivity. Qed.

Lemma frame_timing_insert st role (l l' : list value) :
  timing_log st !! role = Some l →
  ∀ k, is_Some (timing_log st !! k) → is_Some (<[role := l']> (timing_log st) !! k).
Proof.
  intros Hl k Hk. destruct (decide (role = k)) as [->|Hne].
  - rewrite lookup_insert_eq. eauto.
  - by rewrite lookup_insert_ne.
Qed.

(** A hop that comes to nothing: no event, whatever the result. *)
Ltac hop_silent :=
  intros [= <- <-]; unfold frame; fields_simpl;
  split; [by repeat split|];
  exists []; split; [by rewrite app_nil_r|]; try discriminate.

Lemma hop_spec e cid pkt_base i role prev st st' r :
  hop e cid pkt_base i role prev st = (st', r) →
  frame st st' ∧
  ∃ evs, emitted st' = emitted st ++ evs ∧
    (r = Ok tt → ∃ o, outcome_of e (agents st) role o ∧ evs = outcome_events o).
Proof.
  unfold hop. run.
  destruct (agents st !! role) as [ws|] eqn:Hag.
  - destruct (agent_send_ok e role); run; [|hop_silent].
    destruct (agent_recv e role) as [| |raw|[| | | | | |log_msg]] eqn:Hrecv; run;
      try hop_silent; try (intros _; exists Skipped; simpl; by eauto).
    destruct (eq_str (get log_msg "type" VNone) "log") eqn:Hty; run.
    2:{ hop_silent. intros _. exists Skipped. simpl. eauto 6. }
    unfold subscript. destruct (log_msg !! "data") as [log|] eqn:Hdata; run;
      [|hop_silent].
    assert (Hlive : outcome_of e (agents st) role (Live log)) by (simpl; eauto 8).
    destruct (terminal role); run.
    + destruct (timing_log st !! role) as [l|] eqn:Hl.
      * rewrite bind_unfold. erewrite record_timing_Some by exact Hl.
        rewrite broadcast_to_browsers_eq. intros [= <- <-].
        unfold frame. fields_simpl.
        split; [repeat split; by eapply frame_timing_insert|].
        eexists. split; [reflexivity|]. intros _. by exists (Live log).
      * rewrite bind_unfold. erewrite record_timing_None by exact Hl. hop_silent.
    + rewrite broadcast_to_browsers_eq. intros [= <- <-].
      unfold frame. fields_simpl. split; [by repeat split|].
      eexists. split; [reflexivity|]. intros _. by exists (Live log).
  - destruct (synthesize_log role _ (strftime e role)) as [synth|ex] eqn:Hs; run;
      [|hop_silent].
    assert (Hsyn : outcome_of e (agents st) role (Synthesized synth)).
    { simpl. apply synthesize_log_Ok in Hs. tauto. }
    destruct (terminal role); run.
    + destruct (timing_log st !! role) as [l|] eqn:Hl.
      * rewrite bind_unfold. erewrite record_timing_Some by exact Hl.
        rewrite broadcast_to_browsers_eq. intros [= <- <-].
        unfold frame. fields_simpl.
        split; [repeat split; by eapply frame_timing_insert|].
        eexists. split; [reflexivity|]. intros _. by exists (Synthesized synth).
      * rewrite bind_unfold. erewrite record_timing_None by exact Hl. hop_silent.
    + rewrite broadcast_to_browsers_eq. intros [= <- <-].
      unfold frame. fields_simpl. split; [by repeat split|].
      eexists. split; [reflexivity|]. intros _. by exists (Synthesized synth).
Qed.

(** ** A whole circuit *)

Lemma outcome_events_types o :
  event_type <$> outcome_events o =
    replicate (length (outcome_events o)) (Some (VStr "relay_log")) ∧
  (length (outcome_events o) ≤ 1)%nat.
Proof. destruct o; simpl; split; (reflexivity || lia). Qed.

Lemma hops_spec e cid pkt_base irs prev st st' r :
  hops e cid pkt_base irs prev st = (st', r) →
  frame st st' ∧
  ∃ evs, emitted st' = emitted st ++ evs ∧
    (r = Ok tt →
     ∃ os, Forall2 (fun ir o => outcome_of e (agents st) ir.2 o) irs os ∧
           evs = concat (outcome_events <$> os)).
Proof.
  revert prev st. induction irs as [|[i role] rest IH]; intros prev st; simpl.
  - intros [= <- <-]. split; [apply frame_refl|]. exists [].
    split; [by rewrite app_nil_r|]. intros _. exists []. by split.
  - rewrite bind_unfold.
    destruct (hop e cid pkt_base i role prev st) as [st1 [[]|ex]] eqn:Hh;
      apply hop_spec in Hh as (Hf & evs & Hem & Hout).
    + intros Hrest. apply IH in Hrest as (Hf' & evs' & Hem' & Hout').
      split; [by eapply frame_trans|].
      exists (evs ++ evs'). split; [by rewrite Hem', Hem, app_assoc|].
      intros Hr. destruct (Hout eq_refl) as (o & Ho & ->).
      destruct (Hout' Hr) as (os & Hos & ->).
      exists (o :: os). split; [|done].
      constructor; [done|]. destruct Hf as (Hag & _). by rewrite Hag in Hos.
    + intros [= <- <-]. split; [done|]. exists evs. split; [done|]. discriminate.
Qed.

Lemma new_circuit_id_eq st :
  new_circuit_id st =
    (set_circuit_counter (circuit_counter st + 1) st, Ok (circuit_id_after st)).
Proof. reflexivity. Qed.

(** The events of a circuit that returned. *)
Lemma send_circuit_spec e src_ip dst_ip st st' :
  send_circuit e src_ip dst_ip st = (st', Ok tt) →
  ∃ src dst og om oe,
    emitted st' =
      emitted st ++
        [event "circuit_start"
           (VDict (dict [("id", VStr (circuit_id_after st)); ("src", src); ("dst", dst)]))] ++
        outcome_events og ++ outcome_events om ++ outcome_events oe ++
        [event "circuit_done" (VDict (dict [("id", VStr (circuit_id_after st))]))] ∧
    outcome_of e (agents st) "guard" og ∧
    outcome_of e (agents st) "middle" om ∧
    outcome_of e (agents st) "exit" oe.
Proof.
  unfold send_circuit. rewrite bind_unfold, new_circuit_id_eq.
  rewrite bind_unfold, broadcast_to_browsers_eq.
  rewrite bind_unfold.
  match goal with |- context [hops ?a ?b ?c ?d ?f ?s] =>
    destruct (hops a b c d f s) as [st1 [[]|ex]] eqn:Hh end; [|discriminate].
  apply hops_spec in Hh as (Hf & evs & Hem & Hout).
  destruct (Hout eq_refl) as (os & Hos & ->).
  rewrite broadcast_to_browsers_eq. intros [= <-]. fields_simpl.
  unfold roles in Hos. simpl in Hos.
  apply Forall2_cons_inv_l in Hos as (og & os1 & Hg & Hos & ->).
  apply Forall2_cons_inv_l in Hos as (om & os2 & Hm & Hos & ->).
  apply Forall2_cons_inv_l in Hos as (oe & os3 & He & Hos & ->).
  apply Forall2_nil_inv_l in Hos as ->.
  eexists _, _, og, om, oe. split; [|by repeat split].
  rewrite Hem. fields_simpl. simpl. rewrite app_nil_r, <- !app_assoc. reflexivity.
Qed.

Lemma event_type_event t d : event_type (event t d) = Some (VStr t).
Proof. unfold event_type, event. by dict_lookup. Qed.

(** C4. A run of [send_circuit] that returns has broadcast, in this order:
    one [circuit_start], then for the guard, the middle and the exit hop in
    turn either nothing (the live agent timed out or answered with another
    message type), the entry a live agent reported, or a synthesized entry,
    then one [circuit_done] for the same circuit id. So the new events are a
    [circuit_start], at most three [relay_log]s and a [circuit_done]. *)
Theorem send_circuit_event_order e src_ip dst_ip st :
  (send_circuit e src_ip dst_ip st).2 = Ok tt →
  ∃ src dst og om oe n,
    emitted (send_circuit e src_ip dst_ip st).1 =
      emitted st ++
        [event "circuit_start"
           (VDict (dict [("id", VStr (circuit_id_after st)); ("src", src); ("dst", dst)]))] ++
        outcome_events og ++ outcome_events om ++ outcome_events oe ++
        [event "circuit_done" (VDict (dict [("id", VStr (circuit_id_after st))]))] ∧
    outcome_of e (agents st) "guard" og ∧
    outcome_of e (agents st) "middle" om ∧
    outcome_of e (agents st) "exit" oe ∧
    event_type <$> drop (length (emitted st)) (emitted (send_circuit e src_ip dst_ip st).1) =
      Some (VStr "circuit_start") :: replicate n (Some (VStr "relay_log")) ++
      [Some (VStr "circuit_done")] ∧
    (n ≤ 3)%nat.
Proof.
  destruct (send_circuit e src_ip dst_ip st) as [st' r] eqn:Hrun. simpl.
  intros ->. apply send_circuit_spec in Hrun as (src & dst & og & om & oe & Hem & Hg & Hm & He).
  exists src, dst, og, om, oe,
    (length (outcome_events og) + length (outcome_events om) + length (outcome_events oe))%nat.
  split; [exact Hem|]. do 3 (split; [done|]).
  destruct (outcome_events_types og) as [Tg Lg].
  destruct (outcome_events_types om) as [Tm Lm].
  destruct (outcome_events_types oe) as [Te Le].
  split; [|lia].
  rewrite Hem, drop_app_length.
  rewrite !fmap_app, !fmap_cons, !fmap_nil, !event_type_event, Tg, Tm, Te.
  cbn [app]. f_equal.
  rewrite !replicate_add, <- !app_assoc. reflexivity.
Qed.

(** ** Circuits with no endpoint registered *)


Lemma timing_ready_initial : timing_ready initial.
Proof. split; by eexists. Qed.





(** ** Malformed replies of a live agent *)

Lemma hop_timeout e cid pkt_base i role prev st ws :
  agents st !! role = Some ws → agent_send_ok e role = true →
  agent_recv e role = Timeout →
  hop e cid pkt_base i role prev st =
    (add_delivered
       [(ws, event "packet"
               (VDict (dict_update pkt_base
                         [("id", VStr (cid +:+ "-" +:+ str_int (i + 1)));
                          ("layers", VInt (3 - i)); ("prev_hop", prev)])))] st,
     Ok tt).
Proof. intros Hag Hsend Hrecv. unfold hop. run. by rewrite Hag, Hsend, Hrecv. Qed.

(** A decoded reply that is an object of another type than [log] leaves
    the hop exactly where a timeout leaves it. *)
Lemma hop_wrong_type_as_timeout e e' cid pkt_base i role prev st ws m :
  agents st !! role = Some ws →
  agent_send_ok e role = true → agent_send_ok e' role = true →
  agent_recv e role = Parsed (VDict m) → eq_str (get m "type" VNone) "log" = false →
  agent_recv e' role = Timeout →
  hop e cid pkt_base i role prev st = hop e' cid pkt_base i role prev st.
Proof.
  intros Hag Hsend Hsend' Hrecv Hty Hrecv'.
  rewrite (hop_timeout e' _ _ _ _ _ _ _ Hag Hsend' Hrecv').
  unfold hop. run. by rewrite Hag, Hsend, Hrecv, Hty.
Qed.

(** C3 (the code departs from it). With a live guard whose reply is not
    JSON, [send_circuit] raises [JSONDecodeError]: only [circuit_start] has
    been broadcast, the middle and exit hops are not processed and there is
    no [circuit_done]. With the same guard timing out, the circuit returns
    and broadcasts the two synthesized entries and [circuit_done]. *)
Theorem send_circuit_not_json_escapes :
  let bad := send_circuit (example_env (fun _ => NotJSON "<html>")) VNone VNone guard_live in
  let late := send_circuit (example_env (fun _ => Timeout)) VNone VNone guard_live in
  bad.2 = Raise JSONDecodeError ∧
  event_type <$> emitted bad.1 = [Some (VStr "circuit_start")] ∧
  late.2 = Ok tt ∧
  event_type <$> emitted late.1 =
    [Some (VStr "circuit_start"); Some (VStr "relay_log"); Some (VStr "relay_log");
     Some (VStr "circuit_done")].
Proof. repeat split; vm_compute; reflexivity. Qed.

Lemma send_circuit_event_order_witness :
  ∃ n, event_type <$> emitted
         (send_circuit (example_env guard_answers_exit_silent) VNone VNone guard_exit_live).1 =
       Some (VStr "circuit_start") :: replicate n (Some (VStr "relay_log")) ++
       [Some (VStr "circuit_done")] ∧ (n ≤ 3)%nat.
Proof.
  destruct (send_circuit_event_order (example_env guard_answers_exit_silent)
              VNone VNone guard_exit_live)
    as (src & dst & og & om & oe & n & _ & _ & _ & _ & Hty & Hn).
  - vm_compute; reflexivity.
  - exists n. split; [exact Hty | exact Hn].
Defined.


(** ** Timing samples *)

(** C2 (as stated) fails: after eleven circuits the guard's list holds
    eleven samples. *)
Lemma timing_log_exceeds_ten :
  ∃ l, timing_log (send_circuits (replicate 11 quiet_env) initial).1 !! "guard" = Some l ∧
       length l = 11%nat.
Proof.
  assert (Hlen : length <$> (timing_log (send_circuits (replicate 11 quiet_env) initial).1
                               !! "guard") = Some 11%nat)
    by (vm_compute; reflexivity).
  destruct (timing_log (send_circuits (replicate 11 quiet_env) initial).1 !! "guard")
    as [l|] eqn:Hl; [|discriminate Hlen].
  injection Hlen as Hlen. exists l. split; [reflexivity | exact Hlen].
Qed.

Lemma last_n_length {A} n (l : list A) : length (last_n n l) = (length l `min` n)%nat.
Proof. unfold last_n. rewrite length_drop. lia. Qed.

Lemma last_n_suffix {A} n (l : list A) : last_n n l `suffix_of` l.
Proof. unfold last_n. apply suffix_drop. Qed.

(** ** The endpoint registry *)

Lemma filter_none {A} (P : A → Prop) `{∀ x, Decision (P x)} (l : list A) :
  Forall (fun x => ¬ P x) l → filter P l = [].
Proof.
  induction 1 as [|x l Hx _ IH]; [done|]. by rewrite filter_cons_False.
Qed.

Lemma handles_lookup role (a : gmap string conn) :
  handles role a = match a !! role with Some ws => [ws] | None => [] end.
Proof.
  unfold handles. destruct (a !! role) as [ws|] eqn:Hl.
  - rewrite <- (insert_delete_id a role ws Hl) at 1.
    assert (Hperm : filter (fun kv : string * conn => kv.1 = role)
                      (map_to_list (<[role:=ws]> (delete role a))) ≡ₚ [(role, ws)]).
    { rewrite map_to_list_insert by apply lookup_delete_eq.
      rewrite filter_cons_True by done.
      rewrite filter_none; [done|].
      apply Forall_forall. intros [k v] Hin Hk. simpl in Hk. subst k.
      apply elem_of_map_to_list in Hin. by rewrite lookup_delete_eq in Hin. }
    apply Permutation_singleton_r in Hperm. by rewrite Hperm.
  - rewrite filter_none; [done|].
    apply Forall_forall. intros [k v] Hin Hk. simpl in Hk. subst k.
    apply elem_of_map_to_list in Hin. congruence.
Qed.

Lemma handles_at_most_one role (a : gmap string conn) : (length (handles role a) ≤ 1)%nat.
Proof. rewrite handles_lookup. destruct (a !! role); simpl; lia. Qed.

Lemma handler_register_eq send_ok role ip ws st :
  ∃ st', handler_register send_ok role ip ws st = (st', Ok tt) ∧
    agents st' = <[role := ws]> (agents st) ∧
    circuit_counter st' = circuit_counter st ∧ timing_log st' = timing_log st ∧
    spawned st' = spawned st ∧
    emitted st' = emitted st ++
      [event "agent_connected" (VDict (dict [("role", VStr role); ("ip", ip)]))] ∧
    browsers st' ⊆ browsers st.
Proof.
  unfold handler_register. rewrite bind_unfold. unfold modify at 1.
  rewrite broadcast_to_browsers_eq. eexists. split; [reflexivity|].
  fields_simpl. repeat split. set_solver.
Qed.

Lemma handler_agent_closed_eq role ws st :
  handler_agent_closed role ws st =
    ((if bool_decide (agents st !! role = Some ws)
      then set_agents (fun a => delete role a) st else st), Ok tt).
Proof.
  unfold handler_agent_closed. run. by destruct (bool_decide _).
Qed.

Lemma on_agent_event_Ok send_ok ev st :
  ∃ st', on_agent_event send_ok ev st = (st', Ok tt).
Proof.
  destruct ev as [role ip ws|role ws]; simpl.
  - destruct (handler_register_eq send_ok role ip ws st) as (st' & H & _). eauto.
  - rewrite handler_agent_closed_eq. eauto.
Qed.

Lemma on_agent_events_Ok send_ok evs st :
  ∃ st', on_agent_events send_ok evs st = (st', Ok tt).
Proof.
  revert st. induction evs as [|ev rest IH]; intros st; simpl.
  - by eexists.
  - rewrite bind_unfold.
    destruct (on_agent_event_Ok send_ok ev st) as (st1 & ->). apply IH.
Qed.

(** C7. Registration never fails: whether or not the role was occupied, the
    registry afterwards holds exactly the new connection for that role and
    every other role is as before. Whatever registrations and disconnections
    have happened, and in whatever order, none of them fails and the registry
    holds at most one connection for each role. *)
Theorem registry_one_endpoint_per_role send_ok role ip ws st evs :
  (∃ st', handler_register send_ok role ip ws st = (st', Ok tt) ∧
     handles role (agents st') = [ws] ∧
     ∀ r, r ≠ role → agents st' !! r = agents st !! r) ∧
  (∃ st', on_agent_events send_ok evs st = (st', Ok tt) ∧
     ∀ r, (length (handles r (agents st')) ≤ 1)%nat).
Proof.
  split.
  - destruct (handler_register_eq send_ok role ip ws st) as (st' & Hrun & Hag & _).
    exists st'. split; [done|]. rewrite Hag. split.
    + by rewrite handles_lookup, lookup_insert_eq.
    + intros r Hr. by rewrite lookup_insert_ne.
  - destruct (on_agent_events_Ok send_ok evs st) as (st' & Hrun).
    exists st'. split; [done|]. intros r. apply handles_at_most_one.
Qed.

(** C10. When a role's endpoint has been replaced by a newer connection,
    the disconnection of the older one leaves the newer one registered; the
    disconnect handler removes the role's entry only when the registry still
    points at the connection that closed, and never touches another role. *)
Theorem stale_disconnect_keeps_new_endpoint send_ok role ip_old ip_new old new st :
  old ≠ new →
  ∃ st1 st2 st3,
    handler_register send_ok role ip_old old st = (st1, Ok tt) ∧
    handler_register send_ok role ip_new new st1 = (st2, Ok tt) ∧
    handler_agent_closed role old st2 = (st3, Ok tt) ∧
    agents st3 !! role = Some new ∧
    (∀ r ws s,
       agents (handler_agent_closed r ws s).1 =
         if bool_decide (agents s !! r = Some ws)
         then delete r (agents s) else agents s).
Proof.
  intros Hne.
  destruct (handler_register_eq send_ok role ip_old old st) as (st1 & H1 & Hag1 & _).
  destruct (handler_register_eq send_ok role ip_new new st1) as (st2 & H2 & Hag2 & _).
  exists st1, st2, st2. split; [done|]. split; [done|].
  assert (Hnew : agents st2 !! role = Some new) by (by rewrite Hag2, lookup_insert_eq).
  rewrite handler_agent_closed_eq, Hnew.
  rewrite bool_decide_eq_false_2 by (intros [= ?]; congruence).
  split; [done|]. split; [done|].
  intros r ws s. rewrite handler_agent_closed_eq.
  by destruct (bool_decide _).
Qed.

Lemma stale_disconnect_keeps_new_endpoint_witness :
  ∃ st3, handler_agent_closed "guard" 7%positive
           (handler_register (fun _ => true) "guard" (VStr "192.168.1.21") 8%positive
              (handler_register (fun _ => true) "guard" (VStr "192.168.1.20") 7%positive
                 watched).1).1 = (st3, Ok tt) ∧
         agents st3 !! "guard" = Some 8%positive.
Proof.
  destruct (stale_disconnect_keeps_new_endpoint (fun _ => true) "guard"
              (VStr "192.168.1.20") (VStr "192.168.1.21") 7%positive 8%positive watched)
    as (st1 & st2 & st3 & H1 & H2 & H3 & Hag & _).
  - discriminate.
  - exists st3. rewrite H1. simpl. rewrite H2. simpl. split; assumption.
Defined.

(** ** The scheduler *)

(** Whatever its result, a circuit takes one circuit id, broadcasts its
    [circuit_start] first and leaves the registry and the tasks alone. *)
Lemma send_circuit_frame e src_ip dst_ip st st' r :
  send_circuit e src_ip dst_ip st = (st', r) →
  circuit_counter st' = circuit_counter st + 1 ∧
  agents st' = agents st ∧ spawned st' = spawned st ∧
  (∀ k, is_Some (timing_log st !! k) → is_Some (timing_log st' !! k)) ∧
  ∃ start rest, emitted st' = emitted st ++ start :: rest ∧
    event_type start = Some (VStr "circuit_start").
Proof.
  unfold send_circuit. rewrite bind_unfold, new_circuit_id_eq.
  rewrite bind_unfold, broadcast_to_browsers_eq. rewrite bind_unfold.
  match goal with |- context [hops ?a ?b ?c ?d ?f ?s] =>
    destruct (hops a b c d f s) as [st1 [[]|ex]] eqn:Hh end;
    apply hops_spec in Hh as ((Hag & Hcnt & Hsp & Htl) & evs & Hem & _);
    fields_simpl.
  - rewrite broadcast_to_browsers_eq. intros [= <- <-]. fields_simpl.
    rewrite Hcnt, Hag, Hsp, Hem. repeat split; [exact Htl|].
    eexists _, _. split; [rewrite <- !app_assoc; reflexivity|].
    apply event_type_event.
  - intros [= <- <-]. rewrite Hcnt, Hag, Hsp, Hem. repeat split; [exact Htl|].
    eexists _, _. split; [rewrite <- !app_assoc; reflexivity|].
    apply event_type_event.
Qed.

(** C9. One turn of the scheduler originates a circuit exactly when the
    observer set is not empty: then and only then a circuit id is taken (and
    [circuit_start] broadcast). When that circuit returns, the count of
    originated circuits goes up by one and, exactly when the new count is a
    multiple of five, one correlation task is created, not run: the turn
    ends with the task merely recorded. With no observer the turn changes
    nothing. *)
Theorem scheduler_tick_spec e ai_key count st :
  (browsers st ≠ ∅ ↔
     circuit_counter (scheduler_tick e ai_key count st).1 = circuit_counter st + 1) ∧
  (browsers st = ∅ → scheduler_tick e ai_key count st = (st, Ok count)) ∧
  (browsers st ≠ ∅ →
     (scheduler_tick e ai_key count st).2 =
       bindR (send_circuit e VNone VNone st).2 (fun _ => Ok (count + 1)) ∧
     spawned (scheduler_tick e ai_key count st).1 =
       spawned st ++
         match (send_circuit e VNone VNone st).2 with
         | Ok _ => if (count + 1) mod 5 =? 0 then [TaskCorrelation ai_key] else []
         | Raise _ => []
         end).
Proof.
  unfold scheduler_tick. run.
  destruct (decide (browsers st = ∅)) as [Hb|Hb].
  - rewrite bool_decide_eq_false_2 by (by intros ?). run. simpl.
    split; [split; [done|lia]|]. split; [done|]. done.
  - rewrite bool_decide_eq_true_2 by done. rewrite bind_unfold.
    destruct (send_circuit e VNone VNone st) as [st1 [[]|ex]] eqn:Hrun;
      apply send_circuit_frame in Hrun as (Hcnt & _ & Hsp & _); simpl.
    + destruct ((count + 1) mod 5 =? 0); unfold bind, ret, modify; fields_simpl.
      * split; [by split|]. split; [done|]. intros _. by rewrite Hsp.
      * split; [by split|]. split; [done|]. intros _. by rewrite Hsp, app_nil_r.
    + split; [by split|]. split; [done|]. intros _. by rewrite Hsp, app_nil_r.
Qed.

(** ** The relay agent on arbitrary packets *)

Lemma sub1_Ok_iff x : (∃ y, sub1 x = Ok y) ↔ is_number x = true.
Proof.
  destruct x; simpl; split; try done; try (intros [? [=]]); eauto.
Qed.

(** The three agents [init] can build. *)
Lemma init_cases role host ip agent :
  Relay.init role host ip = Ok agent →
  (role = "guard" ∧
   agent = {| Relay.role := "guard"; coordinator := "ws://" +:+ host; my_ip := ip;
              vis := {| sees_src := true; sees_dst := false;
                        sees_prev := false; sees_next := true |};
              packet_count := 0 |}) ∨
  (role = "middle" ∧
   agent = {| Relay.role := "middle"; coordinator := "ws://" +:+ host; my_ip := ip;
              vis := {| sees_src := false; sees_dst := false;
                        sees_prev := true; sees_next := true |};
              packet_count := 0 |}) ∨
  (role = "exit" ∧
   agent = {| Relay.role := "exit"; coordinator := "ws://" +:+ host; my_ip := ip;
              vis := {| sees_src := false; sees_dst := true;
                        sees_prev := true; sees_next := false |};
              packet_count := 0 |}).
Proof.
  intros Hinit. pose proof (init_Ok _ _ _ _ Hinit) as Hr.
  unfold Relay.init in Hinit.
  destruct Hr as [-> | [-> | ->]];
    apply bindR_Ok in Hinit as (w & Hw & [= <-]);
    vm_compute in Hw; injection Hw as <-; auto.
Qed.

Lemma init_unknown_role role host ip :
  role ∉ roles → Relay.init role host ip = Raise (KeyError role).
Proof.
  intros Hr. unfold Relay.init, subscript, ROLE_VISIBILITY.
  rewrite !lookup_insert_ne, lookup_empty; [done|..];
    intros <-; apply Hr; unfold roles; rewrite !elem_of_cons; auto.
Qed.

Ltac build_run :=
  unfold build_log_entry;
  cbn [vis sees_src sees_dst sees_prev sees_next Relay.role my_ip];
  change (subscript NEXT_HOP "guard") with (Ok (A:=string) "middle") || idtac;
  change (subscript NEXT_HOP "middle") with (Ok (A:=string) "exit") || idtac;
  cbn [bindR].

Lemma build_log_entry_returns role host ip agent pkt now :
  Relay.init role host ip = Ok agent →
  (∃ entry, build_log_entry agent pkt now = Ok entry) ↔
    (role = "guard" → is_Some (pkt !! "src")) ∧
    (role = "exit" → is_Some (pkt !! "dst")) ∧
    is_number (get pkt "layers" (VInt 3)) = true.
Proof.
  intros Hinit.
  destruct (init_cases _ _ _ _ Hinit) as [[-> ->] | [[-> ->] | [-> ->]]]; build_run.
  - unfold subscript. destruct (pkt !! "src") as [src|]; cbn [bindR]; split.
    + intros (entry & H%bindR_Ok). destruct H as (y & Hy & _).
      repeat split; [eauto | done | apply sub1_Ok_iff; eauto].
    + intros (_ & _ & (y & ->)%sub1_Ok_iff). cbn [bindR]. eauto.
    + by intros [? [=]].
    + intros ([? [=]]%(fun H => H eq_refl) & _).
  - split.
    + intros (entry & H%bindR_Ok). destruct H as (y & Hy & _).
      repeat split; [done | done | apply sub1_Ok_iff; eauto].
    + intros (_ & _ & (y & ->)%sub1_Ok_iff). cbn [bindR]. eauto.
  - unfold subscript. destruct (pkt !! "dst") as [dst|]; cbn [bindR]; split.
    + intros (entry & H%bindR_Ok). destruct H as (y & Hy & _).
      repeat split; [done | eauto | apply sub1_Ok_iff; eauto].
    + intros (_ & _ & (y & ->)%sub1_Ok_iff). cbn [bindR]. eauto.
    + by intros [? [=]].
    + intros (_ & [? [=]]%(fun H => H eq_refl) & _).
Qed.

(** X1. When [build_log_entry] returns: the guard needs the packet's [src], the
    exit its [dst], the middle relay neither, and a [layers] entry, when
    there is one, must be a number. *)
Theorem build_log_entry_returns_iff role host ip agent pkt now :
  Relay.init role host ip = Ok agent →
  (∃ entry, build_log_entry agent pkt now = Ok entry) ↔
    (role = "guard" → is_Some (pkt !! "src")) ∧
    (role = "exit" → is_Some (pkt !! "dst")) ∧
    is_number (get pkt "layers" (VInt 3)) = true.
Proof. apply build_log_entry_returns. Qed.

Lemma build_log_entry_returns_iff_witness :
  (∃ entry, build_log_entry example_middle_agent ∅ "09:00:00" = Ok entry) ↔
    ("middle" = "guard" → is_Some ((∅ : gmap string value) !! "src")) ∧
    ("middle" = "exit" → is_Some ((∅ : gmap string value) !! "dst")) ∧
    is_number (get (∅ : gmap string value) "layers" (VInt 3)) = true.
Proof.
  apply (build_log_entry_returns_iff "middle" "localhost:8765" "192.168.1.20").
  vm_compute; reflexivity.
Defined.

Lemma build_log_entry_Ok agent pkt now entry :
  build_log_entry agent pkt now = Ok entry →
  ∃ from_ip to_ip remaining,
    (if sees_src (vis agent) then subscript pkt "src"
     else Ok (if sees_prev (vis agent) then get pkt "prev_hop" (VStr "???")
              else VStr "???")) = Ok from_ip ∧
    sub1 (get pkt "layers" (VInt 3)) = Ok remaining ∧
    entry !! "relay" = Some (VStr (Relay.role agent)) ∧
    entry !! "relay_ip" = Some (VStr (my_ip agent)) ∧
    entry !! "circuit_id" = Some (get pkt "circuit_id" VNone) ∧
    entry !! "ts" = Some (VStr now) ∧
    entry !! "from_ip" = Some from_ip ∧
    entry !! "to_ip" = Some to_ip ∧
    entry !! "layers_remaining" = Some remaining ∧
    entry !! "packet_size_bytes" = Some (get pkt "size" (VInt 512)) ∧
    entry !! "synthesized" = None.
Proof.
  unfold build_log_entry. cbn zeta. intros H.
  apply bindR_Ok in H as (from_ip & Hf & H).
  apply bindR_Ok in H as (to_ip & Ht & H).
  apply bindR_Ok in H as (remaining & Hr & [= <-]).
  exists from_ip, to_ip, remaining. split; [done|]. split; [done|].
  repeat split; by dict_lookup.
Qed.

(** X2. What a packet lacks is filled in: without [layers] the entry counts 2
    remaining layers, without [size] 512 bytes, without [circuit_id] the id
    is [None], and a middle or exit relay without [prev_hop] reports the
    sender [???]. A live entry never carries the [synthesized] flag. *)
Theorem build_log_entry_defaults role host ip agent pkt now entry :
  Relay.init role host ip = Ok agent →
  build_log_entry agent pkt now = Ok entry →
  (pkt !! "layers" = None → entry !! "layers_remaining" = Some (VInt 2)) ∧
  (pkt !! "size" = None → entry !! "packet_size_bytes" = Some (VInt 512)) ∧
  (pkt !! "circuit_id" = None → entry !! "circuit_id" = Some VNone) ∧
  (role ≠ "guard" → pkt !! "prev_hop" = None → entry !! "from_ip" = Some (VStr "???")) ∧
  entry !! "relay" = Some (VStr role) ∧ entry !! "relay_ip" = Some (VStr ip) ∧
  entry !! "ts" = Some (VStr now) ∧ entry !! "synthesized" = None.
Proof.
  intros Hinit Hb.
  apply build_log_entry_Ok in Hb
    as (f & t & r & Hf & Hr & H1 & H2 & H3 & H4 & H5 & _ & H7 & H8 & H9).
  unfold get in *.
  assert (Hrole : Relay.role agent = role ∧ my_ip agent = ip ∧
                  (role ≠ "guard" → sees_src (vis agent) = false ∧
                                    sees_prev (vis agent) = true)).
  { destruct (init_cases _ _ _ _ Hinit) as [[-> ->] | [[-> ->] | [-> ->]]]; simpl;
      repeat split; done. }
  destruct Hrole as (Er & Ei & Hv). rewrite Er in H1. rewrite Ei in H2.
  split; [intros Hk; rewrite Hk in Hr; simpl in Hr; injection Hr as <-; exact H7|].
  split; [intros Hk; by rewrite Hk in H8|].
  split; [intros Hk; by rewrite Hk in H3|].
  split; [|done].
  intros Hne Hk. destruct (Hv Hne) as [Es Ep]. rewrite Es, Ep, Hk in Hf.
  simpl in Hf. congruence.
Qed.

Lemma build_log_entry_defaults_witness :
  ∃ entry, build_log_entry example_middle_agent ∅ "09:00:00" = Ok entry ∧
    entry !! "layers_remaining" = Some (VInt 2) ∧
    entry !! "from_ip" = Some (VStr "???").
Proof.
  destruct (build_log_entry example_middle_agent ∅ "09:00:00") as [entry|] eqn:Hb;
    [|discriminate Hb].
  assert (Hinit : Relay.init "middle" "localhost:8765" "192.168.1.20"
                  = Ok example_middle_agent) by (vm_compute; reflexivity).
  destruct (build_log_entry_defaults _ _ _ _ _ _ _ Hinit Hb)
    as (Hl & _ & _ & Hf & _).
  exists entry. split; [reflexivity|]. split; [by apply Hl | by apply Hf].
Defined.

(** X3. A role's live entry is a function of what the role may see: two packets
    that differ only in entries hidden from the role (the destination and
    the previous hop for the guard, the source and the destination for the
    middle relay, the source for the exit) give the same result, entry or
    exception. *)
Theorem build_log_entry_sees_only role host ip agent pkt pkt' now :
  Relay.init role host ip = Ok agent →
  (∀ k, k ∉ hidden_from role → pkt !! k = pkt' !! k) →
  build_log_entry agent pkt now = build_log_entry agent pkt' now.
Proof.
  intros Hinit Hsame.
  assert (Hk : ∀ k, k ∉ hidden_from role → ∀ d : value, get pkt k d = get pkt' k d)
    by (intros k Hk d; unfold get; by rewrite Hsame).
  assert (Hs : ∀ k, k ∉ hidden_from role → subscript pkt k = subscript pkt' k)
    by (intros k Hk'; unfold subscript; by rewrite Hsame).
  destruct (init_cases _ _ _ _ Hinit) as [[-> ->] | [[-> ->] | [-> ->]]]; build_run;
    cbn [hidden_from String.eqb Ascii.eqb Bool.eqb] in Hk, Hs.
  - rewrite (Hs "src"), (Hk "layers"), (Hk "circuit_id"), (Hk "size");
      [done|..]; rewrite !elem_of_cons, elem_of_nil; intros [?|[?|[]]]; discriminate.
  - rewrite (Hk "prev_hop"), (Hk "layers"), (Hk "circuit_id"), (Hk "size");
      [done|..]; rewrite !elem_of_cons, elem_of_nil; intros [?|[?|[]]]; discriminate.
  - rewrite (Hs "dst"), (Hk "prev_hop"), (Hk "layers"), (Hk "circuit_id"), (Hk "size");
      [done|..]; rewrite !elem_of_cons, elem_of_nil; intros [?|[]]; discriminate.
Qed.

Lemma build_log_entry_sees_only_witness :
  build_log_entry example_middle_agent example_exit_pkt "09:00:00" =
  build_log_entry example_middle_agent
    (<["src" := VStr "10.9.0.77"]> (<["dst" := VStr "93.184.1.1"]> example_exit_pkt))
    "09:00:00".
Proof.
  apply (build_log_entry_sees_only "middle" "localhost:8765" "192.168.1.20").
  - vm_compute; reflexivity.
  - intros k Hk. cbn [hidden_from String.eqb Ascii.eqb Bool.eqb] in Hk.
    rewrite !elem_of_cons, elem_of_nil in Hk.
    rewrite !lookup_insert_ne; [done|..]; intros <-; apply Hk; auto.
Defined.

(** ** Synthesis on arbitrary packets *)

(** X4. [synthesize_log] returns exactly for the three roles of its table and
    packets that carry [src], [dst], [circuit_id] and a numeric [layers]:
    unlike the live middle relay it needs [src] and [dst] whatever the role,
    and it has no default for [layers]. *)
Theorem synthesize_log_returns_iff role pkt now :
  (∃ synth, synthesize_log role pkt now = Ok synth) ↔
    role ∈ roles ∧ is_Some (pkt !! "src") ∧ is_Some (pkt !! "dst") ∧
    is_Some (pkt !! "circuit_id") ∧
    ∃ layers, pkt !! "layers" = Some layers ∧ is_number layers = true.
Proof.
  unfold synthesize_log, subscript at 1 2 4 5. split.
  - intros (synth & H).
    destruct (pkt !! "src") as [src|]; [|discriminate H].
    destruct (pkt !! "dst") as [dst|]; [|discriminate H]. cbn [bindR] in H.
    apply bindR_Ok in H as (v & Hv%subscript_Ok & H).
    destruct (pkt !! "circuit_id") as [cid|]; [|discriminate H].
    destruct (pkt !! "layers") as [layers|]; [|discriminate H]. cbn [bindR] in H.
    apply bindR_Ok in H as (rem & Hrem & _).
    split; [|repeat split; eauto; exists layers; split; [done|apply sub1_Ok_iff; eauto]].
    unfold roles. rewrite !elem_of_cons.
    apply lookup_insert_Some in Hv as [[<- _]|[_ Hv]]; [by auto|].
    apply lookup_insert_Some in Hv as [[<- _]|[_ Hv]]; [by auto|].
    apply lookup_insert_Some in Hv as [[<- _]|[_ Hv]]; [by auto|].
    by rewrite lookup_empty in Hv.
  - intros (Hr & [src ->] & [dst ->] & [cid ->] & layers & -> & Hn).
    apply sub1_Ok_iff in Hn as [rem Hrem]. cbn [bindR].
    unfold roles in Hr. rewrite !elem_of_cons, elem_of_nil in Hr.
    destruct Hr as [-> | [-> | [-> | []]]]; unfold subscript;
      repeat first [ rewrite lookup_insert_eq | rewrite lookup_insert_ne by done ];
      cbn [bindR]; rewrite Hrem; cbn [bindR]; eexists; reflexivity.
Qed.

(** An unknown role is a [KeyError] on the role, once the packet has its
    two addresses. *)
Lemma synthesize_log_unknown_role role pkt now src dst :
  role ∉ roles → pkt !! "src" = Some src → pkt !! "dst" = Some dst →
  synthesize_log role pkt now = Raise (KeyError role).
Proof.
  intros Hr Hs Hd. unfold synthesize_log, subscript. rewrite Hs, Hd. cbn [bindR].
  rewrite !lookup_insert_ne, lookup_empty; [done|..];
    intros <-; apply Hr; unfold roles; rewrite !elem_of_cons; auto.
Qed.

(** ** The agent's receive loop *)

Lemma eq_str_exclusive x s t : s ≠ t → eq_str x s = true → eq_str x t = false.
Proof.
  destruct x; simpl; try done. intros Hne Hs%String.eqb_eq. subst.
  by apply String.eqb_neq.
Qed.

(** X5. One message through the agent. The agent keeps its role, address and
    visibility; a [packet] is counted and answered with one [log] message
    carrying [build_log_entry] of its data; a [ping] is answered with a
    [pong] naming the role and counts nothing; any other message object is
    ignored: no reply, nothing counted. *)
Theorem on_message_reply self msg now self' reply :
  on_message self msg now = Ok (self', reply) →
  ∃ m, msg = VDict m ∧
    Relay.role self' = Relay.role self ∧ my_ip self' = my_ip self ∧
    vis self' = vis self ∧
    (eq_str (get m "type" VNone) "packet" = true →
       packet_count self' = packet_count self + 1 ∧
       ∃ pkt log, m !! "data" = Some (VDict pkt) ∧
         build_log_entry self pkt now = Ok log ∧
         reply = Some (event "log" (VDict log))) ∧
    (eq_str (get m "type" VNone) "ping" = true →
       self' = self ∧
       reply = Some (VDict (dict [("type", VStr "pong");
                                  ("role", VStr (Relay.role self))]))) ∧
    (eq_str (get m "type" VNone) "packet" = false →
     eq_str (get m "type" VNone) "ping" = false →
       self' = self ∧ reply = None).
Proof.
  unfold on_message. destruct msg as [| | | | | |m]; try discriminate.
  intros H. exists m. split; [done|].
  destruct (eq_str (get m "type" VNone) "packet") eqn:Hp.
  - rewrite (eq_str_exclusive _ "packet" "ping") by done.
    apply bindR_Ok in H as (data & Hd%subscript_Ok & H).
    destruct data as [| | | | | |pkt]; try discriminate.
    apply bindR_Ok in H as (log & Hlog & [= <- <-]). simpl.
    do 3 (split; [done|]). split; [|split; [discriminate|discriminate]].
    intros _. split; [done|]. by exists pkt, log.
  - destruct (eq_str (get m "type" VNone) "ping") eqn:Hg; injection H as <- <-;
      do 3 (split; [done|]); (split; [discriminate|]); split; (done || discriminate).
Qed.

Lemma on_message_reply_witness :
  ∃ m, event "packet" (VDict example_exit_pkt) = VDict m ∧
    eq_str (get m "type" VNone) "packet" = true.
Proof.
  destruct (on_message example_middle_agent (event "packet" (VDict example_exit_pkt))
              "09:00:00") as [[self' reply]|] eqn:H; [|vm_compute in H; discriminate H].
  destruct (on_message_reply _ _ _ _ _ H) as (m & Hm & _).
  exists m. split; [exact Hm|]. injection Hm as <-. reflexivity.
Defined.

(** ** A live hop, end to end *)

Lemma hop_packet_lookup cid pkt_base i prev :
  hop_packet cid pkt_base i prev !! "layers" = Some (VInt (3 - i)) ∧
  hop_packet cid pkt_base i prev !! "prev_hop" = Some prev ∧
  hop_packet cid pkt_base i prev !! "src" = pkt_base !! "src" ∧
  hop_packet cid pkt_base i prev !! "dst" = pkt_base !! "dst" ∧
  hop_packet cid pkt_base i prev !! "circuit_id" = pkt_base !! "circuit_id" ∧
  hop_packet cid pkt_base i prev !! "size" = pkt_base !! "size".
Proof. unfold hop_packet. repeat split; by dict_lookup. Qed.


(** ** The correlation task *)

(** X11. [run_ai_correlation] never raises. Without an API key it does nothing
    at all; when the analysis fails nothing is broadcast and the state is
    untouched; when it answers, exactly one [ai_analysis] event carrying the
    answer is broadcast. In no case are the timing samples consumed. *)
Theorem run_ai_correlation_contained analysis send_ok api_key st :
  ∃ st', run_ai_correlation analysis send_ok api_key st = (st', Ok tt) ∧
    timing_log st' = timing_log st ∧ agents st' = agents st ∧
    circuit_counter st' = circuit_counter st ∧
    (api_key = "" → st' = st) ∧
    (∀ ex, bindR (correlation_ctx st) analysis = Raise ex → st' = st) ∧
    (∀ text, api_key ≠ "" → bindR (correlation_ctx st) analysis = Ok text →
       emitted st' = emitted st ++
         [event "ai_analysis" (VDict (dict [("text", VStr text)]))]).
Proof.
  unfold run_ai_correlation.
  destruct (String.eqb_spec api_key "") as [->|Hkey].
  - exists st. unfold ret. repeat split; try done.
  - destruct (bindR (correlation_ctx st) analysis) as [text|ex] eqn:Hctx.
    + rewrite broadcast_to_browsers_eq. eexists. split; [reflexivity|].
      fields_simpl. repeat split; try done. by intros ? ? [= <-].
    + exists st. repeat split; try done.
Qed.

(** ** Observers *)

Lemma handler_browser_eq send_ok ws st :
  handler_browser send_ok ws st =
    if send_ok
    then (add_delivered
            [(ws, event "agent_status"
                    (VDict (dict [("connected",
                                   VList (VStr <$> (map_to_list (agents st)).*1))])))]
            (set_browsers (fun b => {[ws]} ∪ b) st), Ok tt)
    else (set_browsers (fun b => {[ws]} ∪ b) st, Raise ConnectionClosed).
Proof. unfold handler_browser. run. by destruct send_ok. Qed.

(** X12. A new observer joins the set and is told which roles have a live
    endpoint: the [connected] list names every registered role once and
    nothing else. If that first send fails the exception leaves [handler]
    before its [try], so the connection stays in the observer set. *)
Theorem handler_browser_status send_ok ws st :
  ∃ st' r, handler_browser send_ok ws st = (st', r) ∧
    browsers st' = {[ws]} ∪ browsers st ∧ agents st' = agents st ∧
    emitted st' = emitted st ∧
    (send_ok = false → r = Raise ConnectionClosed ∧ delivered st' = delivered st) ∧
    (send_ok = true → r = Ok tt ∧
       ∃ connected,
         delivered st' = delivered st ++
           [(ws, event "agent_status" (VDict (dict [("connected", VList connected)])))] ∧
         NoDup connected ∧
         ∀ role, VStr role ∈ connected ↔ is_Some (agents st !! role)).
Proof.
  rewrite handler_browser_eq. destruct send_ok.
  - eexists _, _. split; [reflexivity|]. fields_simpl.
    do 3 (split; [done|]). split; [discriminate|]. intros _. split; [done|].
    eexists. split; [reflexivity|]. split.
    + apply NoDup_fmap_2; [by intros ?? [= ->]|]. apply NoDup_fst_map_to_list.
    + intros role. rewrite list_elem_of_fmap. split.
      * intros (r & [= <-] & Hin). apply list_elem_of_fmap in Hin as ([k c] & -> & Hin).
        apply elem_of_map_to_list in Hin. simpl. eauto.
      * intros [c Hc]. exists role. split; [done|]. apply list_elem_of_fmap.
        exists (role, c). split; [done|]. by apply elem_of_map_to_list.
  - eexists _, _. split; [reflexivity|]. fields_simpl.
    do 3 (split; [done|]). split; [done|]. discriminate.
Qed.

(** X13. An observer that connects and later disconnects leaves the observer set
    as it found it, and disconnecting removes that observer alone. *)
Theorem handler_browser_closed_restores ws st :
  ws ∉ browsers st →
  ∃ st1 st2,
    handler_browser true ws st = (st1, Ok tt) ∧
    handler_browser_closed ws st1 = (st2, Ok tt) ∧
    browsers st2 = browsers st ∧
    ∀ s other, other ≠ ws →
      (other ∈ browsers (handler_browser_closed ws s).1 ↔ other ∈ browsers s).
Proof.
  intros Hnew. rewrite handler_browser_eq. eexists _, _. split; [reflexivity|].
  unfold handler_browser_closed, modify. split; [reflexivity|]. fields_simpl.
  split; [set_solver|]. intros s other Hne. set_solver.
Qed.

Lemma handler_browser_closed_restores_witness :
  ∃ st1 st2,
    handler_browser true 2%positive watched = (st1, Ok tt) ∧
    handler_browser_closed 2%positive st1 = (st2, Ok tt) ∧
    browsers st2 = browsers watched.
Proof.
  destruct (handler_browser_closed_restores 2%positive watched)
    as (st1 & st2 & H1 & H2 & H3 & _).
  - unfold watched. fields_simpl. intros H%elem_of_singleton. discriminate H.
  - by exists st1, st2.
Defined.

(** A [send_packet] message creates one circuit task with the addresses of
    the message ([None] for an absent one) and runs nothing itself; any
    other message object is ignored. *)
Lemma handler_browser_message_spawns m st :
  ∃ st', handler_browser_message (VDict m) st = (st', Ok tt) ∧
    agents st' = agents st ∧ browsers st' = browsers st ∧
    circuit_counter st' = circuit_counter st ∧ emitted st' = emitted st ∧
    spawned st' = spawned st ++
      (if eq_str (get m "type" VNone) "send_packet"
       then [TaskCircuit (get m "src" VNone) (get m "dst" VNone)] else []).
Proof.
  unfold handler_browser_message.
  destruct (eq_str (get m "type" VNone) "send_packet"); unfold modify, ret;
    eexists; (split; [reflexivity|]); fields_simpl; repeat split; try done.
  by rewrite app_nil_r.
Qed.

(** ** A synthesized circuit, field by field *)

Lemma synthesize_log_fields role pkt now synth :
  synthesize_log role pkt now = Ok synth →
  ∃ src dst cid layers remaining,
    pkt !! "src" = Some src ∧ pkt !! "dst" = Some dst ∧
    pkt !! "circuit_id" = Some cid ∧ pkt !! "layers" = Some layers ∧
    sub1 layers = Ok remaining ∧
    synth !! "circuit_id" = Some cid ∧
    synth !! "ts" = Some (VStr now) ∧
    synth !! "layers_remaining" = Some remaining ∧
    synth !! "from_known" = Some (VBool true) ∧
    synth !! "to_known" = Some (VBool true) ∧
    synth !! "relay_ip" = None ∧ synth !! "packet_size_bytes" = None ∧
    (role = "guard" → synth !! "from_ip" = Some src) ∧
    (role = "exit" → synth !! "to_ip" = Some dst).
Proof.
  unfold synthesize_log. intros Hs.
  apply bindR_Ok in Hs as (src & Hsrc%subscript_Ok & Hs).
  apply bindR_Ok in Hs as (dst & Hdst%subscript_Ok & Hs).
  apply bindR_Ok in Hs as (v & Hv%subscript_Ok & Hs).
  apply bindR_Ok in Hs as (cid & Hcid%subscript_Ok & Hs).
  apply bindR_Ok in Hs as (ly & Hly%subscript_Ok & Hs).
  apply bindR_Ok in Hs as (rem & Hrem & [= <-]).
  exists src, dst, cid, ly, rem. do 5 (split; [done|]).
  assert (Hcases : (role = "exit" ∧ v = (VStr "middle-relay", dst, true, true)) ∨
                   (role = "middle" ∧ v = (VStr "guard-node", VStr "exit-node", true, true)) ∨
                   (role = "guard" ∧ v = (src, VStr "middle-relay", true, true))).
  { apply lookup_insert_Some in Hv as [[<- <-]|[_ Hv]]; [by auto|].
    apply lookup_insert_Some in Hv as [[<- <-]|[_ Hv]]; [by auto|].
    apply lookup_insert_Some in Hv as [[<- <-]|[_ Hv]]; [by auto|].
    by rewrite lookup_empty in Hv. }
  destruct Hcases as [[-> ->] | [[-> ->] | [-> ->]]]; cbn [fst snd];
    (do 5 (split; [by dict_lookup|]));
    (do 2 (split; [by dict_lookup; rewrite ?lookup_empty|]));
    (split; intros Hr; [try discriminate Hr | try discriminate Hr]; by dict_lookup).
Qed.

Lemma hop_unregistered_terminal e cid pkt_base i role prev st synth l :
  agents st !! role = None → terminal role = true →
  timing_log st !! role = Some l →
  synthesize_log role (hop_packet cid pkt_base i prev) (strftime e role) = Ok synth →
  ∃ st', hop e cid pkt_base i role prev st = (st', Ok tt) ∧
    agents st' = agents st ∧
    timing_log st' =
      <[role := l ++ [timing_sample (time_time e (AtHop role)) cid]]> (timing_log st) ∧
    emitted st' = emitted st ++ [event "relay_log" (VDict synth)] ∧
    (∀ ws, ws ∈ browsers st' ↔
           ws ∈ browsers st ∧ browser_send_ok e (AtHop role) ws = true) ∧
    delivered st' = delivered st ++
      ((fun ws => (ws, event "relay_log" (VDict synth))) <$>
       filter (fun ws => browser_send_ok e (AtHop role) ws = true) (elements (browsers st))).
Proof.
  intros Hag Hterm Hl Hs. unfold hop. run. rewrite Hag.
  change (dict_update pkt_base _) with (hop_packet cid pkt_base i prev).
  rewrite Hs. run. rewrite Hterm. rewrite bind_unfold.
  erewrite record_timing_Some by exact Hl.
  rewrite broadcast_to_browsers_eq. eexists. split; [reflexivity|]. fields_simpl.
  do 3 (split; [done|]). split; [|done].
  intros ws. rewrite elem_of_difference, elem_of_union, elem_of_list_to_set,
    list_elem_of_filter, elem_of_elements.
  split.
  - intros [Hin Hn]. split; [done|].
    destruct (browser_send_ok e (AtHop role) ws) eqn:Hok; [done|].
    exfalso. apply Hn. by left.
  - intros [Hin Hok]. split; [done|]. intros [[Hf _]|[]%not_elem_of_empty]. congruence.
Qed.

Lemma hop_unregistered_inner e cid pkt_base i role prev st synth :
  agents st !! role = None → terminal role = false →
  synthesize_log role (hop_packet cid pkt_base i prev) (strftime e role) = Ok synth →
  ∃ st', hop e cid pkt_base i role prev st = (st', Ok tt) ∧
    agents st' = agents st ∧ timing_log st' = timing_log st ∧
    emitted st' = emitted st ++ [event "relay_log" (VDict synth)] ∧
    (∀ ws, ws ∈ browsers st' ↔
           ws ∈ browsers st ∧ browser_send_ok e (AtHop role) ws = true) ∧
    delivered st' = delivered st ++
      ((fun ws => (ws, event "relay_log" (VDict synth))) <$>
       filter (fun ws => browser_send_ok e (AtHop role) ws = true) (elements (browsers st))).
Proof.
  intros Hag Hterm Hs. unfold hop. run. rewrite Hag.
  change (dict_update pkt_base _) with (hop_packet cid pkt_base i prev).
  rewrite Hs. run. rewrite Hterm. run.
  rewrite broadcast_to_browsers_eq. eexists. split; [reflexivity|]. fields_simpl.
  do 3 (split; [done|]). split; [|done].
  intros ws. rewrite elem_of_difference, elem_of_union, elem_of_list_to_set,
    list_elem_of_filter, elem_of_elements.
  split.
  - intros [Hin Hn]. split; [done|].
    destruct (browser_send_ok e (AtHop role) ws) eqn:Hok; [done|].
    exfalso. apply Hn. by left.
  - intros [Hin Hok]. split; [done|]. intros [[Hf _]|[]%not_elem_of_empty]. congruence.
Qed.

Lemma terminal_guard : terminal "guard" = true. Proof. reflexivity. Qed.
Lemma terminal_middle : terminal "middle" = false. Proof. reflexivity. Qed.
Lemma terminal_exit : terminal "exit" = true. Proof. reflexivity. Qed.

(** With no endpoint registered a circuit is fully determined: its result,
    its five events and their fields, and the one sample it adds to each
    terminal role's list. *)
Lemma send_circuit_unregistered_fields e src_ip dst_ip st lg lx :
  agents st = ∅ →
  timing_log st !! "guard" = Some lg → timing_log st !! "exit" = Some lx →
  ∃ st' sg sm se,
    send_circuit e src_ip dst_ip st = (st', Ok tt) ∧
    emitted st' = emitted st ++
      [event "circuit_start"
         (VDict (dict [("id", VStr (circuit_id_after st));
                       ("src", circuit_src e src_ip); ("dst", circuit_dst e dst_ip)]));
       event "relay_log" (VDict sg); event "relay_log" (VDict sm);
       event "relay_log" (VDict se);
       event "circuit_done" (VDict (dict [("id", VStr (circuit_id_after st))]))] ∧
    sg !! "from_ip" = Some (circuit_src e src_ip) ∧
    se !! "to_ip" = Some (circuit_dst e dst_ip) ∧
    sg !! "circuit_id" = Some (VStr (circuit_id_after st)) ∧
    sm !! "circuit_id" = Some (VStr (circuit_id_after st)) ∧
    se !! "circuit_id" = Some (VStr (circuit_id_after st)) ∧
    sg !! "layers_remaining" = Some (VInt 2) ∧
    sm !! "layers_remaining" = Some (VInt 1) ∧
    se !! "layers_remaining" = Some (VInt 0) ∧
    timing_log st' !! "guard" =
      Some (lg ++ [timing_sample (time_time e (AtHop "guard")) (circuit_id_after st)]) ∧
    timing_log st' !! "exit" =
      Some (lx ++ [timing_sample (time_time e (AtHop "exit")) (circuit_id_after st)]) ∧
    circuit_counter st' = circuit_counter st + 1.
Proof.
  intros Hempty Hg Hx.
  unfold send_circuit. rewrite bind_unfold, new_circuit_id_eq.
  rewrite bind_unfold, broadcast_to_browsers_eq. rewrite bind_unfold.
  unfold roles. cbn [enumerate hops].
  fold (circuit_src e src_ip). fold (circuit_dst e dst_ip).
  set (cid := circuit_id_after st).
  set (pb := dict [("circuit_id", VStr cid); ("src", circuit_src e src_ip);
                   ("dst", circuit_dst e dst_ip); ("size", VInt (randint_size e));
                   ("ts", VFloat (time_time e AtStart))]).
  assert (Hpb : pb !! "src" = Some (circuit_src e src_ip) ∧
                pb !! "dst" = Some (circuit_dst e dst_ip) ∧
                pb !! "circuit_id" = Some (VStr cid))
    by (unfold pb; repeat split; by dict_lookup).
  destruct Hpb as (Hsrc & Hdst & Hcid).
  assert (Hsyn : ∀ role i prev, role ∈ roles →
            ∃ s, synthesize_log role (hop_packet cid pb i prev) (strftime e role) = Ok s ∧
                 s !! "layers_remaining" = Some (VInt (3 - i - 1)) ∧
                 s !! "circuit_id" = Some (VStr cid) ∧
                 (role = "guard" → s !! "from_ip" = Some (circuit_src e src_ip)) ∧
                 (role = "exit" → s !! "to_ip" = Some (circuit_dst e dst_ip))).
  { intros role i prev Hr.
    destruct (hop_packet_lookup cid pb i prev) as (Hl & _ & Hs & Hd & Hc & _).
    rewrite Hsrc in Hs. rewrite Hdst in Hd. rewrite Hcid in Hc.
    destruct (synthesize_log_total role (hop_packet cid pb i prev) (strftime e role)
                _ _ _ _ Hr Hs Hd Hc Hl) as (s & Hsok & _ & _ & Hrem).
    exists s. split; [done|]. split; [done|].
    destruct (synthesize_log_fields _ _ _ _ Hsok)
      as (src' & dst' & cid' & ly' & rem' & Es & Ed & Ec & _ & _ & Fc & _ & _ & _ & _ & _ & _ & Ff & Ft).
    rewrite Hs in Es. rewrite Hd in Ed. rewrite Hc in Ec.
    injection Es as <-. injection Ed as <-. injection Ec as <-. done. }
  rewrite bind_unfold.
  match goal with |- context [hop e cid pb 0 "guard" _ ?s] => set (st0 := s) end.
  destruct (Hsyn "guard" 0 (circuit_src e src_ip)) as (sg & Hsg & Lg & Cg & Fg & _);
    [unfold roles; rewrite !elem_of_cons; auto|].
  destruct (hop_unregistered_terminal e cid pb 0 "guard" (circuit_src e src_ip) st0 sg lg)
    as (st1 & H1 & Hag1 & Htl1 & Hem1 & _); [by (unfold st0; fields_simpl; rewrite Hempty) | done | exact Hg | exact Hsg |].
  rewrite H1. cbv beta iota. rewrite bind_unfold.
  destruct (Hsyn "middle" (0 + 1) (VStr (get HOP_IPS "guard" "?"))) as (sm & Hsm & Lm & Cm & _);
    [unfold roles; rewrite !elem_of_cons; auto|].
  destruct (hop_unregistered_inner e cid pb (0 + 1) "middle" (VStr (get HOP_IPS "guard" "?")) st1 sm)
    as (st2 & H2 & Hag2 & Htl2 & Hem2 & _);
    [by (rewrite Hag1; unfold st0; fields_simpl; rewrite Hempty) | done | exact Hsm |].
  rewrite H2. cbv beta iota. rewrite bind_unfold.
  destruct (Hsyn "exit" (0 + 1 + 1) (VStr (get HOP_IPS "middle" "?"))) as (se & Hse & Le & Ce & _ & Fe);
    [unfold roles; rewrite !elem_of_cons; auto|].
  destruct (hop_unregistered_terminal e cid pb (0 + 1 + 1) "exit"
              (VStr (get HOP_IPS "middle" "?")) st2 se lx)
    as (st3 & H3 & Hag3 & Htl3 & Hem3 & _);
    [by (rewrite Hag2, Hag1; unfold st0; fields_simpl; rewrite Hempty) | done
    | by (rewrite Htl2, Htl1, lookup_insert_ne by done) | exact Hse |].
  rewrite H3. cbv beta iota. unfold ret at 1. cbv beta iota.
  rewrite broadcast_to_browsers_eq.
  eexists _, sg, sm, se. split; [reflexivity|]. fields_simpl.
  split; [rewrite Hem3, Hem2, Hem1; unfold st0; fields_simpl;
          rewrite <- !app_assoc; reflexivity|].
  split; [by apply Fg|]. split; [by apply Fe|].
  do 6 (split; [done|]).
  split; [by rewrite Htl3, lookup_insert_ne, Htl2, Htl1, lookup_insert_eq|].
  split; [by rewrite Htl3, lookup_insert_eq|].
  destruct (hop_spec _ _ _ _ _ _ _ _ _ H3) as ((_ & ->  & _) & _).
  destruct (hop_spec _ _ _ _ _ _ _ _ _ H2) as ((_ & ->  & _) & _).
  destruct (hop_spec _ _ _ _ _ _ _ _ _ H1) as ((_ & ->  & _) & _).
  reflexivity.
Qed.


(** ** What a circuit does to the shared state *)

Lemma received_app ws out1 out2 :
  received ws (out1 ++ out2) = received ws out1 ++ received ws out2.
Proof. unfold received. by rewrite filter_app, fmap_app. Qed.

Lemma received_other ws ws' msg : ws' ≠ ws → received ws [(ws', msg)] = [].
Proof. intros Hne. unfold received. by rewrite filter_cons_False, filter_nil. Qed.

Lemma received_fan_out ws msg (l : list conn) :
  NoDup l → ws ∈ l → received ws ((fun w => (w, msg)) <$> l) = [msg].
Proof.
  unfold received. induction 1 as [|w l Hw Hl IH]; [by intros ?%elem_of_nil|].
  intros Hin. rewrite fmap_cons. destruct (decide (w = ws)) as [->|Hne].
  - rewrite filter_cons_True by done. rewrite fmap_cons. f_equal.
    rewrite filter_none; [done|]. apply Forall_forall.
    intros [w' m'] Hin' Heq. simpl in Heq. subst w'.
    apply list_elem_of_fmap in Hin' as (w'' & [= -> _] & Hin'). done.
  - rewrite filter_cons_False by done. apply IH.
    apply elem_of_cons in Hin as [->|Hin]; done.
Qed.

Lemma circuit_step_refl e cid ws st : circuit_step e cid ws st st.
Proof.
  split; [done|]. split.
  - intros role l Hl. exists []. rewrite app_nil_r. by repeat split.
  - intros Hin _ _. split; [done|]. exists [], []. by rewrite !app_nil_r.
Qed.

Lemma circuit_step_trans e cid ws st1 st2 st3 :
  circuit_step e cid ws st1 st2 → circuit_step e cid ws st2 st3 →
  circuit_step e cid ws st1 st3.
Proof.
  intros (Ha & Ht & Ho) (Ha' & Ht' & Ho'). split; [congruence|]. split.
  - intros role l Hl. destruct (Ht role l Hl) as (l1 & Hl1 & Hn1 & Hf1).
    destruct (Ht' role _ Hl1) as (l2 & Hl2 & Hn2 & Hf2).
    exists (l1 ++ l2). rewrite app_assoc. split; [done|]. split.
    + intros Hterm. by rewrite Hn1, Hn2.
    + by apply Forall_app.
  - intros Hin Hok Hnot. destruct (Ho Hin Hok Hnot) as (Hin2 & evs & out & He & Hd & Hr).
    destruct Ho' as (Hin3 & evs' & out' & He' & Hd' & Hr'); [done|done|by rewrite Ha|].
    split; [done|]. exists (evs ++ evs'), (out ++ out').
    rewrite He', He, Hd', Hd, !app_assoc, received_app, Hr, Hr'. done.
Qed.

Lemma sat_bind {A B} R (m : M A) (k : A → M B) :
  (∀ x y z, R x y → R y z → R x z) →
  sat R m → (∀ a, sat R (k a)) → sat R (bind m k).
Proof.
  intros Htrans Hm Hk st st' r. rewrite bind_unfold.
  destruct (m st) as [st1 [a|ex]] eqn:Hrun.
  - intros Hrest. eapply Htrans; [by eapply Hm | by eapply Hk].
  - intros [= <- <-]. by eapply Hm.
Qed.

Lemma sat_pure {A} (R : coord → coord → Prop) (r : result A) :
  (∀ x, R x x) → sat R (lift r).
Proof. intros Hrefl st st' r' [= <- <-]. apply Hrefl. Qed.

Lemma sat_broadcast e cid ws site msg :
  sat (circuit_step e cid ws) (broadcast_to_browsers (browser_send_ok e site) msg).
Proof.
  intros st st' r. rewrite broadcast_to_browsers_eq. intros [= <- <-].
  unfold circuit_step. fields_simpl. split; [done|]. split.
  - intros role l Hl. exists []. rewrite app_nil_r. by repeat split.
  - intros Hin Hok _. split.
    + rewrite elem_of_difference, elem_of_union, elem_of_list_to_set,
        list_elem_of_filter. split; [done|].
      intros [[Hf _]|[]%not_elem_of_empty]. rewrite Hok in Hf. discriminate.
    + eexists [msg], _. split; [done|]. split; [done|].
      apply received_fan_out; [apply NoDup_filter, NoDup_elements|].
      apply list_elem_of_filter. by rewrite elem_of_elements.
Qed.

Lemma sat_timing e cid ws role t :
  sat (circuit_step e cid ws)
      (if terminal role then record_timing role cid t else ret tt).
Proof.
  intros st st' r. destruct (terminal role) eqn:Hterm.
  - destruct (timing_log st !! role) as [l|] eqn:Hl.
    + rewrite (record_timing_Some _ _ _ _ _ Hl). intros [= <- <-].
      unfold circuit_step. fields_simpl. split; [done|]. split.
      * intros role' l' Hl'. destruct (decide (role = role')) as [<-|Hne].
        -- rewrite lookup_insert_eq. rewrite Hl in Hl'. injection Hl' as <-.
           eexists. split; [reflexivity|]. split; [congruence|].
           constructor; [by eexists|constructor].
        -- rewrite lookup_insert_ne by done. exists []. rewrite app_nil_r.
           by repeat split.
      * intros Hin _ _. split; [done|]. exists [], []. by rewrite !app_nil_r.
    + rewrite (record_timing_None _ _ _ _ Hl). intros [= <- <-].
      apply circuit_step_refl.
  - intros [= <- <-]. apply circuit_step_refl.
Qed.

Lemma sat_forward e cid ws role t site msg :
  sat (circuit_step e cid ws)
      ((if terminal role then record_timing role cid t else ret tt) ;;;
       broadcast_to_browsers (browser_send_ok e site) msg).
Proof.
  apply sat_bind; [apply circuit_step_trans | apply sat_timing |].
  intros _. apply sat_broadcast.
Qed.

Lemma hop_step e cid ws pkt_base i role prev :
  sat (circuit_step e cid ws) (hop e cid pkt_base i role prev).
Proof.
  intros st st' r. unfold hop. rewrite bind_unfold. unfold read at 1.
  destruct (agents st !! role) as [aw|] eqn:Hag.
  - rewrite bind_unfold. destruct (agent_send_ok e role).
    2:{ intros [= <- <-]. apply circuit_step_refl. }
    unfold modify at 1.
    match goal with |- context [add_delivered ?o st] => set (st1 := add_delivered o st) end.
    assert (H1 : circuit_step e cid ws st st1).
    { unfold circuit_step, st1. fields_simpl. split; [done|]. split.
      - intros role' l' Hl'. exists []. rewrite app_nil_r. by repeat split.
      - intros Hin _ Hnot. split; [done|]. eexists [], _. rewrite app_nil_r.
        split; [done|]. split; [done|]. apply received_other.
        intros ->. by apply (Hnot role). }
    intros Hrest. eapply circuit_step_trans; [exact H1|]. revert Hrest.
    generalize st1. clear H1 st1 Hag. intros st1.
    destruct (agent_recv e role) as [| |raw|[| | | | | |log_msg]];
      try (intros [= <- <-]; apply circuit_step_refl).
    destruct (eq_str (get log_msg "type" VNone) "log");
      [|intros [= <- <-]; apply circuit_step_refl].
    revert st1 st' r. fold (sat (circuit_step e cid ws)
      (do! log := lift (subscript log_msg "data") in
       (if terminal role then record_timing role cid (time_time e (AtHop role))
        else ret ()) ;;;
       broadcast_to_browsers (browser_send_ok e (AtHop role)) (event "relay_log" log))).
    apply sat_bind; [apply circuit_step_trans | apply sat_pure, circuit_step_refl |].
    intros log. apply sat_forward.
  - revert st' r Hag. generalize st at 2 3. intros st0 st' r _. revert st0 st' r.
    fold (sat (circuit_step e cid ws)
      (do! synth := lift (synthesize_log role
             (dict_update pkt_base
                [("id", VStr (cid +:+ "-" +:+ str_int (i + 1)));
                 ("layers", VInt (3 - i)); ("prev_hop", prev)]) (strftime e role)) in
       (if terminal role then record_timing role cid (time_time e (AtHop role))
        else ret ()) ;;;
       broadcast_to_browsers (browser_send_ok e (AtHop role))
         (event "relay_log" (VDict synth)))).
    apply sat_bind; [apply circuit_step_trans | apply sat_pure, circuit_step_refl |].
    intros synth. apply sat_forward.
Qed.

Lemma hops_step e cid ws pkt_base irs prev :
  sat (circuit_step e cid ws) (hops e cid pkt_base irs prev).
Proof.
  revert prev. induction irs as [|[i role] rest IH]; intros prev; cbn [hops].
  - intros st st' r [= <- <-]. apply circuit_step_refl.
  - apply sat_bind; [apply circuit_step_trans | apply hop_step |].
    intros _. apply IH.
Qed.

Lemma send_circuit_step e src_ip dst_ip ws st st' r :
  send_circuit e src_ip dst_ip st = (st', r) →
  circuit_step e (circuit_id_after st) ws st st'.
Proof.
  unfold send_circuit. rewrite bind_unfold, new_circuit_id_eq.
  intros Hrun. eapply circuit_step_trans with (set_circuit_counter (circuit_counter st + 1) st).
  { unfold circuit_step. fields_simpl. split; [done|]. split.
    - intros role l Hl. exists []. rewrite app_nil_r. by repeat split.
    - intros Hin _ _. split; [done|]. exists [], []. by rewrite !app_nil_r. }
  revert Hrun. generalize (set_circuit_counter (circuit_counter st + 1) st).
  generalize (circuit_id_after st). intros cid st0 Hrun. revert st0 st' r Hrun.
  apply sat_bind; [apply circuit_step_trans | apply sat_broadcast |].
  intros _. apply sat_bind; [apply circuit_step_trans | apply hops_step |].
  intros _. apply sat_broadcast.
Qed.

(** X8. The timing samples are append-only. Whatever a circuit does and however
    it ends, every timing list keeps all its earlier samples in place; only
    the lists of the guard and the exit can grow, and what is appended are
    samples carrying this circuit's id. The endpoint registry is not
    touched. *)
Theorem send_circuit_timing_append_only e src_ip dst_ip st st' r role l :
  send_circuit e src_ip dst_ip st = (st', r) →
  timing_log st !! role = Some l →
  agents st' = agents st ∧
  ∃ l', timing_log st' !! role = Some (l ++ l') ∧
        (role ≠ "guard" → role ≠ "exit" → l' = []) ∧
        Forall (fun v => ∃ t, v = timing_sample t (circuit_id_after st)) l'.
Proof.
  intros Hrun Hl.
  destruct (send_circuit_step _ _ _ 1%positive _ _ _ Hrun) as (Hag & Ht & _).
  split; [done|]. destruct (Ht role l Hl) as (l' & Hl' & Hn & Hf).
  exists l'. split; [done|]. split; [|done].
  intros Hg Hx. apply Hn. unfold terminal.
  apply String.eqb_neq in Hg, Hx. by rewrite Hg, Hx.
Qed.


(** ** Circuit ids *)

Lemma pretty_N_go_head x s :
  (0 < x)%N →
  ∃ d r, (0 < d < 10)%N ∧ pretty_N_go x s = String (pretty_N_char d) r.
Proof.
  revert s. induction (N.lt_wf_0 x) as [x _ IH]; intros s Hx.
  rewrite pretty_N_go_step by done.
  destruct (decide (x < 10)%N) as [Hlt|Hge].
  - rewrite N.div_small by done. rewrite pretty_N_go_0.
    exists (x `mod` 10)%N, s. split; [|done]. rewrite N.mod_small by done. lia.
  - apply IH; [apply N.div_lt; lia|]. apply N.div_str_pos. lia.
Qed.

Lemma pretty_N_char_digit d :
  (0 < d < 10)%N →
  pretty_N_char d ≠ "0"%char ∧ pretty_N_char d ≠ "+"%char ∧ pretty_N_char d ≠ "-"%char.
Proof.
  intros Hd.
  assert (d = 1 ∨ d = 2 ∨ d = 3 ∨ d = 4 ∨ d = 5 ∨ d = 6 ∨ d = 7 ∨ d = 8 ∨ d = 9)%N
    as Hcases by lia.
  repeat destruct Hcases as [->|Hcases]; try subst d; by repeat split.
Qed.

(** The decimal form of a positive integer starts with a digit from 1 to 9. *)
Lemma str_int_head n :
  0 < n →
  ∃ c r, str_int n = String c r ∧
         c ≠ "0"%char ∧ c ≠ "+"%char ∧ c ≠ "-"%char.
Proof.
  destruct n as [|p|p]; try lia. intros _.
  unfold str_int, pretty, pretty_Z, pretty, pretty_positive, pretty, pretty_N.
  rewrite decide_False by done.
  destruct (pretty_N_go_head (N.pos p) "") as (d & r & Hd & ->); [lia|].
  exists (pretty_N_char d), r. split; [done|]. by apply pretty_N_char_digit.
Qed.

Lemma zeros_app_inj a b c1 r1 c2 r2 :
  c1 ≠ "0"%char → c2 ≠ "0"%char →
  zeros a +:+ String c1 r1 = zeros b +:+ String c2 r2 →
  String c1 r1 = String c2 r2.
Proof.
  intros H1 H2. revert b. induction a as [|a IH]; intros [|b]; simpl.
  - done.
  - intros [= -> _]. done.
  - intros [= <- _]. done.
  - intros [= H]. by eapply IH.
Qed.

Lemma string_length_app (s t : string) :
  String.length (s +:+ t) = (String.length s + String.length t)%nat.
Proof. induction s as [|c s IH]; simpl; [done | by rewrite IH]. Qed.

Lemma zeros_length n : String.length (zeros n) = n.
Proof. induction n as [|n IH]; simpl; [done | by rewrite IH]. Qed.

Lemma zfill_unsigned width c r :
  c ≠ "+"%char → c ≠ "-"%char →
  zfill width (String c r) = zeros (width - String.length (String c r)) +:+ String c r.
Proof.
  intros Hp Hm. unfold zfill.
  apply Ascii.eqb_neq in Hp, Hm. by rewrite Hp, Hm.
Qed.

(** X10. Circuit ids do not repeat: each call takes the next counter value, and
    two counter values that are not negative (the counter starts at 0 and
    only goes up) never give the same id, padded or not. *)
Theorem new_circuit_id_unique st1 st2 :
  0 ≤ circuit_counter st1 → 0 ≤ circuit_counter st2 →
  (∃ id, new_circuit_id st1 = (set_circuit_counter (circuit_counter st1 + 1) st1, Ok id) ∧
         String.length id ≥ 4 ∧
         ((new_circuit_id st2).2 = Ok id → circuit_counter st1 = circuit_counter st2)).
Proof.
  intros H1 H2. rewrite new_circuit_id_eq. eexists. split; [reflexivity|].
  unfold new_circuit_id, circuit_id_after. simpl snd.
  destruct (str_int_head (circuit_counter st1 + 1)) as (c1 & r1 & E1 & Z1 & P1 & M1); [lia|].
  destruct (str_int_head (circuit_counter st2 + 1)) as (c2 & r2 & E2 & Z2 & P2 & M2); [lia|].
  rewrite E1, E2, !zfill_unsigned by done. split.
  - change (String.length ("C" +:+ ?x)) with (S (String.length x)).
    rewrite string_length_app, zeros_length. simpl. lia.
  - intros [= H]. apply zeros_app_inj in H; [|done..].
    rewrite <- E1, <- E2 in H. apply (inj pretty) in H. lia.
Qed.

Lemma new_circuit_id_unique_witness :
  ∃ id, new_circuit_id initial = (set_circuit_counter (circuit_counter initial + 1) initial, Ok id) ∧
        String.length id ≥ 4.
Proof.
  destruct (new_circuit_id_unique initial watched) as (id & H & Hlen & _).
  - reflexivity.
  - reflexivity.
  - exists id. split; assumption.
Defined.



Lemma send_circuit_timing_append_only_witness :
  ∃ l', timing_log (send_circuit quiet_env VNone VNone guard_live).1 !! "guard" =
          Some ([] ++ l').
Proof.
  destruct (send_circuit_timing_append_only quiet_env VNone VNone guard_live
              (send_circuit quiet_env VNone VNone guard_live).1
              (send_circuit quiet_env VNone VNone guard_live).2 "guard" [])
    as (_ & l' & Hl & _).
  - by destruct (send_circuit quiet_env VNone VNone guard_live).
  - reflexivity.
  - by exists l'.
Defined.


(** ** The scheduler over many turns *)

Lemma scheduler_tick_idle e ai_key count st :
  browsers st = ∅ → scheduler_tick e ai_key count st = (st, Ok count).
Proof.
  intros Hb. unfold scheduler_tick. run.
  rewrite bool_decide_eq_false_2; [done|]. by intros ?.
Qed.

(** X14. An idle system produces no traffic: with no observer connected, any
    number of scheduler turns leaves the whole state as it was — no circuit
    id taken, nothing broadcast, no task created — and the count of
    originated circuits unchanged. *)
Theorem auto_scheduler_idle es ai_key count st :
  browsers st = ∅ → auto_scheduler es ai_key count st = (st, Ok count).
Proof.
  intros Hb. induction es as [|e es IH]; cbn [auto_scheduler]; [done|].
  rewrite bind_unfold, scheduler_tick_idle by done. exact IH.
Qed.

Lemma auto_scheduler_idle_witness :
  auto_scheduler (replicate 7 quiet_env) "sk-key" 3 initial = (initial, Ok 3).
Proof. apply auto_scheduler_idle. reflexivity. Defined.





(** ** When a circuit raises *)










(** ** Timing samples are never trimmed *)

(** A hop of a terminal role appends one sample for each entry it
    broadcasts, at the end of the role's list, and removes nothing. *)
Lemma hop_records e cid pkt_base i role prev st st' r l :
  terminal role = true → timing_log st !! role = Some l →
  hop e cid pkt_base i role prev st = (st', r) →
  ∃ evs, emitted st' = emitted st ++ evs ∧ (length evs ≤ 1)%nat ∧
    timing_log st' !! role =
      Some (l ++ ((fun _ => timing_sample (time_time e (AtHop role)) cid) <$> evs)).
Proof.
  intros Hterm Hl. unfold hop. run.
  assert (Hnone : ∀ s : coord, timing_log s = timing_log st → emitted s = emitted st →
            ∃ evs, emitted s = emitted st ++ evs ∧ (length evs ≤ 1)%nat ∧
              timing_log s !! role =
                Some (l ++ ((fun _ => timing_sample (time_time e (AtHop role)) cid) <$> evs))).
  { intros s Ht He. exists []. rewrite Ht, He, !app_nil_r. simpl. by split; [|split; [lia|]]. }
  destruct (agents st !! role) as [ws|].
  - destruct (agent_send_ok e role); run; [|intros [= <- <-]; by apply Hnone].
    destruct (agent_recv e role) as [| |raw|[| | | | | |log_msg]]; run;
      try (intros [= <- <-]; by apply Hnone).
    destruct (eq_str (get log_msg "type" VNone) "log"); run;
      [|intros [= <- <-]; by apply Hnone].
    unfold subscript. destruct (log_msg !! "data") as [log|]; run;
      [|intros [= <- <-]; by apply Hnone].
    rewrite Hterm. rewrite bind_unfold. erewrite record_timing_Some by exact Hl.
    rewrite broadcast_to_browsers_eq. intros [= <- <-]. fields_simpl.
    eexists [_]. split; [reflexivity|]. split; [simpl; lia|].
    by rewrite lookup_insert_eq.
  - destruct (synthesize_log role _ (strftime e role)) as [synth|ex]; run;
      [|intros [= <- <-]; by apply Hnone].
    rewrite Hterm. rewrite bind_unfold. erewrite record_timing_Some by exact Hl.
    rewrite broadcast_to_browsers_eq. intros [= <- <-]. fields_simpl.
    eexists [_]. split; [reflexivity|]. split; [simpl; lia|].
    by rewrite lookup_insert_eq.
Qed.

(** With no endpoint registered, every circuit of a run returns and adds one
    sample to the guard's list and one to the exit's. *)
Lemma send_circuits_unregistered es st lg lx :
  agents st = ∅ →
  timing_log st !! "guard" = Some lg → timing_log st !! "exit" = Some lx →
  ∃ st' lg' lx',
    send_circuits es st = (st', Ok tt) ∧ agents st' = ∅ ∧
    timing_log st' !! "guard" = Some (lg ++ lg') ∧ length lg' = length es ∧
    timing_log st' !! "exit" = Some (lx ++ lx') ∧ length lx' = length es.
Proof.
  revert st lg lx. induction es as [|e es IH]; intros st lg lx Hempty Hg Hx;
    cbn [send_circuits].
  - exists st, [], []. rewrite !app_nil_r. by repeat split.
  - rewrite bind_unfold.
    destruct (send_circuit_unregistered_fields e VNone VNone st lg lx Hempty Hg Hx)
      as (st1 & sg & sm & se & Hrun & _ & _ & _ & _ & _ & _ & _ & _ & _ & Hg1 & Hx1 & _).
    rewrite Hrun. cbv beta iota.
    pose proof (send_circuit_frame _ _ _ _ _ _ Hrun) as (_ & Hag & _).
    destruct (IH st1 _ _ (eq_trans Hag Hempty) Hg1 Hx1)
      as (st' & lg' & lx' & Hrest & Hag' & Hg' & Hlg' & Hx' & Hlx').
    rewrite <- !app_assoc in Hg', Hx'.
    eexists st', (_ ++ lg'), (_ ++ lx'). split; [exact Hrest|]. split; [done|].
    split; [exact Hg'|]. split; [simpl; by rewrite Hlg'|].
    split; [exact Hx'|]. simpl. by rewrite Hlx'.
Qed.

(** C2 (as amended). The stored lists are never trimmed. A hop of a
    terminal role appends one sample for each entry it broadcasts and
    removes nothing; a whole circuit, however it ends, leaves every earlier
    sample of the guard's and the exit's list in place; and the lists have no
    bound: with no endpoint registered, [n] circuits one after the other add
    exactly [n] samples to each. [record_timing] itself appends at the end
    and touches no other list. The window of ten is taken where the samples
    are read: the guard and exit events handed to the correlation analysis
    are the most recent samples of each list, at most ten of them. *)
Theorem timing_samples_window st lg lx :
  timing_log st !! "guard" = Some lg →
  timing_log st !! "exit" = Some lx →
  (∀ e cid pkt_base i role prev st' r l,
     terminal role = true → timing_log st !! role = Some l →
     hop e cid pkt_base i role prev st = (st', r) →
     ∃ evs, emitted st' = emitted st ++ evs ∧ (length evs ≤ 1)%nat ∧
       timing_log st' !! role =
         Some (l ++ ((fun _ => timing_sample (time_time e (AtHop role)) cid) <$> evs))) ∧
  (∀ e src_ip dst_ip st' r,
     send_circuit e src_ip dst_ip st = (st', r) →
     ∃ lg' lx', timing_log st' !! "guard" = Some (lg ++ lg') ∧
                timing_log st' !! "exit" = Some (lx ++ lx')) ∧
  (∀ es, agents st = ∅ →
     ∃ st' lg' lx',
       send_circuits es st = (st', Ok tt) ∧
       timing_log st' !! "guard" = Some (lg ++ lg') ∧ length lg' = length es ∧
       timing_log st' !! "exit" = Some (lx ++ lx') ∧ length lx' = length es) ∧
  (∀ role cid t l, timing_log st !! role = Some l →
     ∃ st', record_timing role cid t st = (st', Ok tt) ∧
       timing_log st' !! role =
         Some (l ++ [VDict (dict [("t", VFloat t); ("cid", VStr cid)])]) ∧
       ∀ r, r ≠ role → timing_log st' !! r = timing_log st !! r) ∧
  ∃ ctx g x,
    correlation_ctx st = Ok ctx ∧
    ctx !! "guard_events" = Some (VList g) ∧
    ctx !! "exit_events" = Some (VList x) ∧
    g `suffix_of` lg ∧ x `suffix_of` lx ∧
    length g = (length lg `min` 10)%nat ∧ length x = (length lx `min` 10)%nat ∧
    (length g ≤ 10)%nat ∧ (length x ≤ 10)%nat.
Proof.
  intros Hg Hx. split; [|split; [|split; [|split]]].
  - intros e cid pkt_base i role prev st' r l Hterm Hl Hrun.
    by eapply hop_records.
  - intros e src_ip dst_ip st' r Hrun.
    destruct (send_circuit_step _ _ _ 1%positive _ _ _ Hrun) as (_ & Ht & _).
    destruct (Ht "guard" lg Hg) as (lg' & Hg' & _).
    destruct (Ht "exit" lx Hx) as (lx' & Hx' & _). by exists lg', lx'.
  - intros es Hempty.
    destruct (send_circuits_unregistered es st lg lx Hempty Hg Hx)
      as (st' & lg' & lx' & Hrun & _ & H). by exists st', lg', lx'.
  - intros role cid t l Hl. eexists. split; [by apply record_timing_Some|].
    fields_simpl. split; [by rewrite lookup_insert_eq|].
    intros r Hr. by rewrite lookup_insert_ne.
  - unfold correlation_ctx, subscript. rewrite Hg, Hx. cbn [bindR].
    eexists _, (last_n 10 lg), (last_n 10 lx). split; [reflexivity|].
    split; [by dict_lookup|]. split; [by dict_lookup|].
    rewrite !last_n_length. repeat split; try apply last_n_suffix; lia.
Qed.

Lemma timing_samples_window_witness :
  ∃ st' lg' ctx g,
    send_circuits (replicate 11 quiet_env) initial = (st', Ok tt) ∧
    timing_log st' !! "guard" = Some ([] ++ lg') ∧ length lg' = 11%nat ∧
    correlation_ctx initial = Ok ctx ∧
    ctx !! "guard_events" = Some (VList g) ∧ (length g ≤ 10)%nat.
Proof.
  destruct (timing_samples_window initial [] [])
    as (_ & _ & Hgrow & _ & ctx & g & x & Hctx & Hcg & _ & _ & _ & _ & _ & Hlg & _).
  - reflexivity.
  - reflexivity.
  - destruct (Hgrow (replicate 11 quiet_env) eq_refl)
      as (st' & lg' & lx' & Hrun & Hg' & Hlen & _).
    exists st', lg', ctx, g. rewrite length_replicate in Hlen.
    repeat split; assumption.
Defined.
